(** * Times-Tables-Tester: the drill's core, embedded and verified

    The repository holds two front ends for one multiplication drill:
    [times_tables.py] (command line) and [times_tables_gui.py] (Tk).  Each
    builds twenty problems for a table, collects answers, times the
    session, decides success, and merges the outcome into [results.json].

    The embedding follows the sources function by function.  What the
    sources take from the Python runtime is made explicit:
    - the random source is an oracle (a stream of raw draws);
    - the wall clock is a stream of readings of [time.time()];
    - standard input is a list of lines, the console a list of events;
    - the file [results.json] is an optional text;
    - [int(.)] and the [json] codec are an interface ([PyLib]).
    Times are binary64 floats, as in the sources.

    Layout: the runtime (monad, random source, rounding), the data model,
    the two front ends ([Cli], [Gui]), a reference runtime and the
    vocabulary of the statements; then the proofs, the claims [C1]-[C10],
    and the claims evaluated at concrete inputs. *)

From Stdlib Require Import ZArith Floats Permutation Ascii String.
From stdpp Require Import gmap strings list fin_maps pretty.

Set Warnings "-inexact-float".
Local Open Scope Z_scope.

(** ** Exceptions and the state-and-error monad *)

Inductive Exn :=
| JSONDecodeError   (* json.load on text that is not JSON *)
| EOFError          (* input() at end of input *)
| IndexError        (* list index out of range *)
| TypeError.        (* arithmetic on None *)

Inductive Res (A : Type) :=
| Ok (a : A)
| Raise (e : Exn).
Arguments Ok {A} a.
Arguments Raise {A} e.

(** A computation over a state [S]: it ends with a value or an exception,
    and the state as it stands at that point. *)
Definition M (S A : Type) : Type := S -> Res A * S.

Definition ret {S A} (a : A) : M S A := fun s => (Ok a, s).

Definition bind {S A B} (m : M S A) (k : A -> M S B) : M S B :=
  fun s => match m s with
           | (Ok a, s') => k a s'
           | (Raise e, s') => (Raise e, s')
           end.

Definition raise {S A} (e : Exn) : M S A := fun s => (Raise e, s).
Definition get {S} : M S S := fun s => (Ok s, s).
Definition modify {S} (f : S -> S) : M S unit := fun s => (Ok tt, f s).

Declare Scope py_scope.
Delimit Scope py_scope with py.
Notation "x <- m ;; k" := (bind m (fun x => k))
  (at level 100, m at next level, right associativity) : py_scope.
Notation "m ;;; k" := (bind m (fun _ => k))
  (at level 100, right associativity) : py_scope.
Local Open Scope py_scope.

(** ** The random source ([random] module)

    The generator is an oracle: [feed g i] is the raw value behind the
    [i]-th draw.  [_randbelow(n)] returns a value below [n]; here it is the
    raw draw reduced modulo [n], so every outcome the library can produce is
    produced by some oracle. *)

Record Gen := mkGen { feed : nat -> nat; drawn : nat }.

Definition randbelow (n : nat) (g : Gen) : nat * Gen :=
  (feed g (drawn g) `mod` n, mkGen (feed g) (S (drawn g)))%nat.

(** [random.randint(a, b)] is [a + _randbelow(b - a + 1)]. *)
Definition randint (a b : Z) (g : Gen) : Z * Gen :=
  let (r, g') := randbelow (Z.to_nat (b - a + 1)) g in (a + Z.of_nat r, g').

(** [[f() for _ in range(n)]]: [n] successive draws, in order. *)
Fixpoint repeat_draw {A} (n : nat) (f : Gen -> A * Gen) (g : Gen) : list A * Gen :=
  match n with
  | O => ([], g)
  | S n' => let (x, g1) := f g in
            let (xs, g2) := repeat_draw n' f g1 in (x :: xs, g2)
  end.

(** [x[i], x[j] = x[j], x[i]] *)
Definition swap {A} (i j : nat) (x : list A) : list A :=
  match x !! i, x !! j with
  | Some xi, Some xj => <[j := xi]> (<[i := xj]> x)
  | _, _ => x
  end.

(** [random.shuffle(x)]:
    [for i in reversed(range(1, len(x))): j = randbelow(i + 1); swap].
    [shuffle_from i] runs the iterations [i, i-1, ..., 1]. *)
Fixpoint shuffle_from {A} (i : nat) (x : list A) (g : Gen) : list A * Gen :=
  match i with
  | O => (x, g)
  | S i' => let (j, g') := randbelow (S i) g in shuffle_from i' (swap i j x) g'
  end.

Definition shuffle {A} (x : list A) (g : Gen) : list A * Gen :=
  shuffle_from (length x - 1) x g.

(** [random.sample(population, k)], the pool branch (taken when
    [len(population) <= 21 + 4 ** ceil(log(3 * k, 4))], which holds for the
    13 problems and [k = 7] of the graphical front end):
    [for i in range(k): j = randbelow(n - i); result[i] = pool[j];
     pool[j] = pool[n - i - 1]].
    [sample_from m k pool] runs [k] iterations with [m = n - i] items left
    unselected at [pool[0 : m]]. *)
Fixpoint sample_from {A} (m k : nat) (pool : list A) (g : Gen) : list A * Gen :=
  match k with
  | O => ([], g)
  | S k' =>
      let (j, g1) := randbelow m g in
      match pool !! j, pool !! (m - 1)%nat with
      | Some pj, Some plast =>
          let (rest, g2) := sample_from (m - 1) k' (<[j := plast]> pool) g1 in
          (pj :: rest, g2)
      | _, _ => ([], g1)
      end
  end.

Definition sample {A} (population : list A) (k : nat) (g : Gen) : list A * Gen :=
  sample_from (length population) k population g.

(** ** [round(x, 2)] on binary64

    CPython rounds the exact binary value of [x] to the nearest multiple of
    1/100, ties to even, and returns the double nearest to that decimal.
    [Prim2SF] gives the exact value [m * 2^e]; the quotient [k / 100] of two
    exactly represented numbers is correctly rounded by IEEE division.
    Exact for [|x| < 2^53 / 100], far beyond any session's duration. *)

Definition round_half_even (num den : Z) : Z :=
  let q := num / den in
  match Z.compare (2 * (num mod den)) den with
  | Lt => q
  | Gt => q + 1
  | Eq => if Z.even q then q else q + 1
  end.

Definition float_of_Z (k : Z) : float := PrimFloat.of_uint63 (Uint63.of_Z k).

Definition round2 (x : float) : float :=
  match Prim2SF x with
  | S754_finite s m e =>
      if 0 <=? e then x   (* an integer already *)
      else
        let k := round_half_even (Z.pos m * 100) (2 ^ (- e)) in
        let r := (float_of_Z k / 100)%float in
        if s then (- r)%float else r
  | _ => x
  end.

(** ** Data model *)

(** A problem [(a, b)] asks for [a * b]. *)
Abbreviation Problem := (Z * Z)%type.

(** One entry of [results.json]:
    [{"attempts": _, "successes": _, "failures": _, "best_time": _}].
    Entries are taken as the program writes them: the four fields present,
    the counts integers, [best_time] a float or [None]. *)
Record TableStats := mkStats {
  attempts : Z;
  successes : Z;
  failures : Z;
  best_time : option float
}.

(** The whole of [results.json]: table key to entry. *)
Abbreviation Store := (gmap string TableStats).

(** [{"attempts": 0, "successes": 0, "failures": 0, "best_time": None}] *)
Definition fresh_stats : TableStats := mkStats 0 0 0 None.

(** [str(n)] for an [int]. *)
Definition str (n : Z) : string := pretty n.

(** [range(n)] *)
Definition range (n : nat) : list Z := seqZ 0 (Z.of_nat n).

(** What the runtime library does and the repository does not define: the
    [json] codec over the text of the results file (a decoding failure is
    [None], Python's [JSONDecodeError]) and [int(.)] on a string ([None] is
    Python's [ValueError]). *)
Class PyLib := {
  text : Type;
  json_dump : Store -> text;
  json_load : text -> option Store;
  py_int : string -> option Z
}.

(** What the user is shown: console lines of the command-line front end,
    labels and message boxes of the graphical one. *)
Inductive Event :=
| SayPracticing (t : Z)
| Prompt (a b : Z)
| SayWrong
| SayNotANumber
| SaySuccess (elapsed : float)
| SayNewRecord
| SayBestStill (best : option float)
| SayFinished (elapsed : float) (correct : Z)
| SayGoalNotReached
| BoxInvalidInput
| BoxInvalidAnswer
| StatsLabel (stats : option TableStats)
| QuestionLabel (a b : Z)
| BoxSuccess (elapsed : float)
| BoxTryAgain (correct : Z) (elapsed : float).

Record Clock := mkClock { reading : nat -> float; reads : nat }.

Section World.
Context {L : PyLib}.

(** Everything outside the program that it reads or writes. *)
Record World := mkWorld {
  gen : Gen;                     (* the random source *)
  clock : Clock;                 (* time.time() *)
  stdin : list string;           (* lines still to be read by input() *)
  shown : list Event;            (* what the user has seen, oldest first *)
  results_file : option text     (* results.json; None: no such file *)
}.

Definition set_gen (g : Gen) (w : World) : World :=
  mkWorld g (clock w) (stdin w) (shown w) (results_file w).
Definition set_clock (c : Clock) (w : World) : World :=
  mkWorld (gen w) c (stdin w) (shown w) (results_file w).
Definition set_stdin (l : list string) (w : World) : World :=
  mkWorld (gen w) (clock w) l (shown w) (results_file w).
Definition set_shown (l : list Event) (w : World) : World :=
  mkWorld (gen w) (clock w) (stdin w) l (results_file w).
Definition set_results_file (f : option text) (w : World) : World :=
  mkWorld (gen w) (clock w) (stdin w) (shown w) f.

(** A call into [random]. *)
Definition random {A} (f : Gen -> A * Gen) : M World A :=
  fun w => let (a, g) := f (gen w) in (Ok a, set_gen g w).

(** [time.time()] *)
Definition time_time : M World float :=
  fun w => let c := clock w in
           (Ok (reading c (reads c)), set_clock (mkClock (reading c) (S (reads c))) w).

(** [print(...)], and every other way of showing something to the user. *)
Definition show (e : Event) : M World unit :=
  modify (fun w => set_shown (shown w ++ [e]) w).

(** [input(prompt)] *)
Definition input (prompt : Event) : M World string :=
  show prompt ;;;
  w <- get ;;
  match stdin w with
  | [] => raise EOFError
  | line :: rest => modify (set_stdin rest) ;;; ret line
  end.

End World.
Arguments World : clear implicits.
Arguments World {L}.

(** ** The rule shared by both front ends

    [correct_answers == 20 and elapsed <= 60]
    ([times_tables.py] line 106, [times_tables_gui.py] line 121). *)
Definition success (correct_answers : Z) (elapsed : float) : bool :=
  (correct_answers =? 20) && (elapsed <=? 60)%float.

(** [best_time is None or elapsed < best_time]
    ([times_tables.py] line 110, [times_tables_gui.py] line 160). *)
Definition new_record (elapsed : float) (best : option float) : bool :=
  match best with
  | None => true
  | Some b => (elapsed <? b)%float
  end.

Definition add_attempt (s : TableStats) : TableStats :=
  mkStats (attempts s + 1) (successes s) (failures s) (best_time s).
Definition add_success (s : TableStats) : TableStats :=
  mkStats (attempts s) (successes s + 1) (failures s) (best_time s).
Definition add_failure (s : TableStats) : TableStats :=
  mkStats (attempts s) (successes s) (failures s + 1) (best_time s).
Definition set_best_time (t : float) (s : TableStats) : TableStats :=
  mkStats (attempts s) (successes s) (failures s) (Some t).

(** ** The command-line front end, [times_tables.py] *)
Module Cli.
Section Cli.
Context {L : PyLib}.

(** [load_results()] *)
Definition load_results : M World Store :=
  w <- get ;;
  match results_file w with
  | Some f =>
      match json_load f with
      | Some results => ret results
      | None => raise JSONDecodeError
      end
  | None => ret ∅
  end.

(** [save_results(results)] *)
Definition save_results (results : Store) : M World unit :=
  modify (set_results_file (Some (json_dump results))).

(** The seven supplemental problems of line 63:
    [[(times_table, random.randint(0, 12)) for _ in range(7)]]. *)
Definition extra_problems (times_table : Z) : Gen -> list Problem * Gen :=
  repeat_draw 7 (fun g => let (m, g') := randint 0 12 g in ((times_table, m), g')).

(** [generate_problems(times_table)] *)
Definition generate_problems (times_table : Z) (g : Gen) : list Problem * Gen :=
  let problems := (fun i => (times_table, i)) <$> range 13 in
  let (extra, g1) := extra_problems times_table g in
  shuffle (problems ++ extra) g1.

(** The body of the loop of lines 86-94, for one problem. *)
Definition ask (p : Problem) (correct_answers : Z) : M World Z :=
  let (a, b) := p in
  answer <- input (Prompt a b) ;;
  match py_int answer with
  | Some n =>
      if n =? a * b then ret (correct_answers + 1)
      else show SayWrong ;;; ret correct_answers
  | None => show SayNotANumber ;;; ret correct_answers
  end.

(** [for a, b in problems: ...] *)
Fixpoint ask_all (problems : list Problem) (correct_answers : Z) : M World Z :=
  match problems with
  | [] => ret correct_answers
  | p :: rest => c <- ask p correct_answers ;; ask_all rest c
  end.

(** Lines 101-118: the merge of one session into the loaded results, with
    the lines it prints. *)
Definition record_session (key : string) (correct_answers : Z) (elapsed : float)
    (results : Store) : list Event * Store :=
  let results :=
    match results !! key with
    | Some _ => results
    | None => <[key := fresh_stats]> results
    end in
  let results := alter add_attempt key results in
  if success correct_answers elapsed then
    let results := alter add_success key results in
    let best := results !! key ≫= best_time in
    if new_record elapsed best then
      ([SaySuccess elapsed; SayNewRecord], alter (set_best_time elapsed) key results)
    else
      ([SaySuccess elapsed; SayBestStill best], results)
  else
    ([SayFinished elapsed correct_answers; SayGoalNotReached],
     alter add_failure key results).

(** [practice_table], from line 83 on: the session over given problems. *)
Definition practice_session (times_table : Z) (problems : list Problem) : M World unit :=
  start_time <- time_time ;;
  correct_answers <- ask_all problems 0 ;;
  end_time <- time_time ;;
  let elapsed := round2 (end_time - start_time)%float in
  results <- load_results ;;
  let key := str times_table in
  let (lines, results) := record_session key correct_answers elapsed results in
  modify (fun w => set_shown (shown w ++ lines) w) ;;;
  save_results results.

(** [practice_table(times_table)] *)
Definition practice_table (times_table : Z) : M World unit :=
  show (SayPracticing times_table) ;;;
  problems <- random (generate_problems times_table) ;;
  practice_session times_table problems.

End Cli.
End Cli.

(** ** The graphical front end, [times_tables_gui.py] *)
Module Gui.

(** The attributes of [TimesTableApp] under the comment [# State]. *)
Record App := mkApp {
  table : option Z;
  problems : list Problem;
  current_index : nat;
  start_time : option float;
  correct_answers : Z
}.

(** [__init__] *)
Definition init : App := mkApp None [] 0 None 0.

Definition set_table (t : option Z) (a : App) : App :=
  mkApp t (problems a) (current_index a) (start_time a) (correct_answers a).
Definition set_problems (p : list Problem) (a : App) : App :=
  mkApp (table a) p (current_index a) (start_time a) (correct_answers a).
Definition set_current_index (i : nat) (a : App) : App :=
  mkApp (table a) (problems a) i (start_time a) (correct_answers a).
Definition set_start_time (t : option float) (a : App) : App :=
  mkApp (table a) (problems a) (current_index a) t (correct_answers a).
Definition set_correct_answers (c : Z) (a : App) : App :=
  mkApp (table a) (problems a) (current_index a) (start_time a) c.

Section Gui.
Context {L : PyLib}.

(** The running application: the object and the world around it. *)
Record Tk := mkTk { self : App; world : World }.

Definition on_self (f : App -> App) : M Tk unit :=
  modify (fun s => mkTk (f (self s)) (world s)).

(** A computation on the world alone, run inside the application. *)
Definition io {A} (m : M World A) : M Tk A :=
  fun s => let (r, w) := m (world s) in (r, mkTk (self s) w).

(** [str(self.table)] *)
Definition table_key (t : option Z) : string :=
  match t with
  | Some n => str n
  | None => "None"
  end.

(** [json.load] of the results file, as lines 145-146 and 174-175 do. *)
Definition read_results (f : text) : M World Store :=
  match json_load f with
  | Some results => ret results
  | None => raise JSONDecodeError
  end.

(** [load_stats_for_table(table)] *)
Definition load_stats_for_table (t : Z) : M World (option TableStats) :=
  w <- get ;;
  match results_file w with
  | None => ret None
  | Some f => results <- read_results f ;; ret (results !! str t)
  end.

(** Lines 150-165: the merge of one session into the loaded results. *)
Definition record_session (key : string) (success : bool) (elapsed : float)
    (results : Store) : Store :=
  let stats := default fresh_stats (results !! key) in
  let stats := add_attempt stats in
  let stats :=
    if success then
      let stats := add_success stats in
      if new_record elapsed (best_time stats) then set_best_time elapsed stats
      else stats
    else add_failure stats in
  <[key := stats]> results.

(** [save_results(success, elapsed)] *)
Definition save_results (success : bool) (elapsed : float) : M Tk unit :=
  s <- get ;;
  results <- io (w <- get ;;
                 match results_file w with
                 | Some f => read_results f
                 | None => ret ∅
                 end) ;;
  let results := record_session (table_key (table (self s))) success elapsed results in
  io (modify (set_results_file (Some (json_dump results)))).

(** [finish_practice()] *)
Definition finish_practice : M Tk unit :=
  now <- io time_time ;;
  s <- get ;;
  match start_time (self s) with
  | None => raise TypeError
  | Some t0 =>
      let elapsed := (now - t0)%float in
      let ok := success (correct_answers (self s)) elapsed in
      save_results ok elapsed ;;;
      if ok then io (show (BoxSuccess elapsed))
      else io (show (BoxTryAgain (correct_answers (self s)) elapsed))
  end.

(** [show_question()] *)
Definition show_question : M Tk unit :=
  s <- get ;;
  match problems (self s) !! current_index (self s) with
  | Some (a, b) => io (show (QuestionLabel a b))
  | None => finish_practice
  end.

(** The seven supplemental problems of line 76:
    [random.sample(self.problems, 7)]. *)
Definition extra_problems (t : Z) : Gen -> list Problem * Gen :=
  sample ((fun i => (t, i)) <$> range 13) 7.

(** Lines 75-78: the problems of a session. *)
Definition prepare_problems (t : Z) (g : Gen) : list Problem * Gen :=
  let problems := (fun i => (t, i)) <$> range 13 in
  let (extra, g1) := sample problems 7 g in
  shuffle (problems ++ extra) g1.

(** Lines 80-90 of [start_practice]: counters reset, the clock read, the
    first question shown. *)
Definition begin_session : M Tk unit :=
  on_self (set_current_index 0) ;;;
  on_self (set_correct_answers 0) ;;;
  now <- io time_time ;;
  on_self (set_start_time (Some now)) ;;;
  show_question.

(** [start_practice()], with the text of the table entry. *)
Definition start_practice (entry : string) : M Tk unit :=
  match py_int entry with
  | None => io (show BoxInvalidInput)
  | Some t =>
      on_self (set_table (Some t)) ;;;
      if negb ((2 <=? t) && (t <=? 12)) then io (show BoxInvalidInput)
      else
        stats <- io (load_stats_for_table t) ;;
        io (show (StatsLabel stats)) ;;;
        problems <- io (random (prepare_problems t)) ;;
        on_self (set_problems problems) ;;;
        begin_session
  end.

(** [check_answer()], with the text of the answer entry. *)
Definition check_answer (user_answer : string) : M Tk unit :=
  match py_int user_answer with
  | None => io (show BoxInvalidAnswer)
  | Some n =>
      s <- get ;;
      match problems (self s) !! current_index (self s) with
      | None => raise IndexError
      | Some (a, b) =>
          (if n =? a * b
           then on_self (set_correct_answers (correct_answers (self s) + 1))
           else ret tt) ;;;
          s <- get ;;
          on_self (set_current_index (S (current_index (self s)))) ;;;
          show_question
      end
  end.

(** The user at the question screen: each text is submitted with the
    Submit button or the Enter key.  The answer entry is on screen only
    while a question is (after [finish_practice] it is hidden and Enter
    no longer reaches [check_answer]), so submissions stop there. *)
Fixpoint submit_all (answers : list string) : M Tk unit :=
  match answers with
  | [] => ret tt
  | a :: rest =>
      s <- get ;;
      if bool_decide (current_index (self s) < length (problems (self s)))%nat
      then check_answer a ;;; submit_all rest
      else ret tt
  end.

End Gui.
End Gui.

(** ** A reference runtime

    An instance of [PyLib] on which the model runs: the text of the results
    file is either a JSON document, given by the store it denotes, or text
    that is not JSON; [int(.)] reads an optional sign and decimal digits. *)

Inductive RefText :=
| Garbled
| Document (results : Store).

Definition digit_of (c : ascii) : option Z :=
  let n := Z.of_nat (nat_of_ascii c) in
  if (48 <=? n) && (n <=? 57) then Some (n - 48) else None.

Fixpoint digits_from (acc : Z) (s : string) : option Z :=
  match s with
  | EmptyString => Some acc
  | String c rest =>
      match digit_of c with
      | Some d => digits_from (10 * acc + d) rest
      | None => None
      end
  end.

Definition ref_int (s : string) : option Z :=
  match s with
  | EmptyString => None
  | String "-" (String c rest) => Z.opp <$> digits_from 0 (String c rest)
  | String "+" (String c rest) => digits_from 0 (String c rest)
  | _ => digits_from 0 s
  end.

Definition ref_lib : PyLib := {|
  text := RefText;
  json_dump := Document;
  json_load := fun f => match f with Document r => Some r | Garbled => None end;
  py_int := ref_int
|}.

(** ** Vocabulary of the statements *)

Section Vocabulary.
Context {L : PyLib}.

(** An entry is balanced when [attempts == successes + failures]. *)
Definition balanced (s : TableStats) : Prop :=
  attempts s = successes s + failures s.

(** The best time recorded for a key, absent when the key or the time is. *)
Definition best_of (results : Store) (key : string) : option float :=
  results !! key ≫= best_time.

(** A text is a right answer to [(a, b)] when it reads as the integer [a * b]. *)
Definition right (p : Problem) (answer : string) : bool :=
  match py_int answer with
  | Some n => n =? p.1 * p.2
  | None => false
  end.

(** The number of right answers, problem by problem. *)
Fixpoint score (problems : list Problem) (answers : list string) : Z :=
  match problems, answers with
  | p :: ps, a :: rest => (if right p a then 1 else 0) + score ps rest
  | _, _ => 0
  end.

(** What the console shows for one problem and its answer. *)
Definition exchange (p : Problem) (answer : string) : list Event :=
  Prompt p.1 p.2 ::
  match py_int answer with
  | Some n => if n =? p.1 * p.2 then [] else [SayWrong]
  | None => [SayNotANumber]
  end.

Fixpoint transcript (problems : list Problem) (answers : list string) : list Event :=
  match problems, answers with
  | p :: ps, a :: rest => exchange p a ++ transcript ps rest
  | _, _ => []
  end.

(** The verdict an event announces, if it announces one. *)
Definition judged (e : Event) : option bool :=
  match e with
  | SaySuccess _ | BoxSuccess _ => Some true
  | SayFinished _ _ | BoxTryAgain _ _ => Some false
  | _ => None
  end.

(** The verdict last announced to the user. *)
Definition verdict (seen : list Event) : option bool := last (omap judged seen).

(** What loading the results file finds: the decoded store, the empty
    store when there is no file, nothing when the text is not JSON. *)
Definition found (f : option text) : option Store :=
  match f with
  | Some txt => json_load txt
  | None => Some ∅
  end.

(** The clock's next reading, and the clock after it was read. *)
Definition now (k : Clock) : float := reading k (reads k).
Definition tick (k : Clock) : Clock := mkClock (reading k) (S (reads k)).

(** The question labels of a run of problems. *)
Definition labels (ps : list Problem) : list Event :=
  (λ p, QuestionLabel p.1 p.2) <$> ps.

(** The application after more was shown, nothing else having changed. *)
Definition saw (evs : list Event) (s : Gui.Tk) : Gui.Tk :=
  Gui.mkTk (Gui.self s) (set_shown (shown (Gui.world s) ++ evs) (Gui.world s)).

(** The problem a console prompt asks. *)
Definition asked (e : Event) : option Problem :=
  match e with
  | Prompt a b => Some (a, b)
  | _ => None
  end.

(** The question on screen: the last one the question label was set to. *)
Definition on_screen (seen : list Event) : option Problem :=
  last (omap (λ e, match e with QuestionLabel a b => Some (a, b) | _ => None end) seen).

(** How [best_time] may move in one merge: kept on a failure; on a success
    replaced by the elapsed time when absent or strictly above it, kept
    otherwise; so it changes only on a success and only downwards. *)
Definition best_time_law (ok : bool) (e : float) (old new : option float) : Prop :=
  (ok = false → new = old) ∧
  (ok = true → (old = None ∨ ∃ b, old = Some b ∧ (e <? b)%float = true) →
   new = Some e) ∧
  (ok = true → (∃ b, old = Some b ∧ (e <? b)%float = false) → new = old) ∧
  (new = old ∨
   (ok = true ∧ new = Some e ∧
    (old = None ∨ ∃ b, old = Some b ∧ (e <? b)%float = true))).

End Vocabulary.

(** ** Sample worlds for the examples *)

Definition gen0 : Gen := mkGen (fun i => (7 * i + 3)%nat) 0.

(** A clock that reads [t0] first and [t1] ever after. *)
Definition clock_of (t0 t1 : float) : Clock :=
  mkClock (fun i => match i with O => t0 | _ => t1 end) 0.

Definition world_of (t0 t1 : float) (lines : list string) (f : option RefText)
  : World (L := ref_lib) :=
  @mkWorld ref_lib gen0 (clock_of t0 t1) lines [] f.

(** The thirteen fixed problems and seven more, in order. *)
Definition twenty (t : Z) : list Problem :=
  ((fun i => (t, i)) <$> range 13) ++ ((fun i => (t, i)) <$> range 7).

(** The right answer to each problem, as text. *)
Definition right_answers (ps : list Problem) : list string :=
  (fun p => str (p.1 * p.2)) <$> ps.


(** The store of the repository's test [test_save_and_load_results]. *)
Definition demo_store : Store := {[ "3" := mkStats 1 1 0 (Some 45.6%float) ]}.

(** The application as [start_practice] leaves it before line 80. *)
Definition tk_of (t : Z) (ps : list Problem) (w : World (L := ref_lib))
  : Gui.Tk (L := ref_lib) :=
  Gui.mkTk (Gui.mkApp (Some t) ps 0 None 0) w.

(** ** The rest of [times_tables.py]: the statistics view and the menu *)

(** A line of the terminal: one printed by a session, or one of the menu's
    and the statistics view's own.  [SayStatsRows] stands for the block of
    lines 130-135, one row per table; the rows come in the order of the
    file's keys, which a [Store] does not record, so the block is held as
    a map from key to row. *)
Inductive Line :=
| Printed (e : Event)
| SayNoStats
| SayStatsHeader
| SayStatsRows (rows : Store)
| SayMenu
| AskChoice
| AskTable
| SayChooseRange
| SayValidNumber
| SayGoodbye
| SayInvalidChoice.

(** [except ValueError]: of the exceptions of the model only
    [json.JSONDecodeError] is a subclass of [ValueError]. *)
Definition is_ValueError (e : Exn) : bool :=
  match e with
  | JSONDecodeError => true
  | _ => false
  end.

(** [try: body / except ValueError: handler] *)
Definition except_ValueError {S} (body handler : M S unit) : M S unit :=
  fun s => match body s with
           | (Raise e, s') => if is_ValueError e then handler s' else (Raise e, s')
           | done => done
           end.

(** [x if x else 'N/A'] for a best time: [None] and zero are falsy. *)
Definition displayed (best : option float) : option float :=
  match best with
  | Some x => if (x =? 0)%float then None else Some x
  | None => None
  end.

(** One row of the statistics view, with the best time as displayed. *)
Definition stats_row (v : TableStats) : TableStats :=
  mkStats (attempts v) (successes v) (failures v) (displayed (best_time v)).

Module Menu.
Section Menu.
Context {L : PyLib}.

(** The terminal of the menu loop: its lines so far, and the world. *)
Record Term := mkTerm { lines : list Line; world : World }.

(** [print(...)] at the menu. *)
Definition say (l : Line) : M Term unit :=
  modify (fun s => mkTerm (lines s ++ [l]) (world s)).

(** [input(prompt)] at the menu. *)
Definition read (prompt : Line) : M Term string :=
  say prompt ;;;
  s <- get ;;
  match stdin (world s) with
  | [] => raise EOFError
  | line :: rest =>
      modify (fun s => mkTerm (lines s) (set_stdin rest (world s))) ;;; ret line
  end.

(** A call of a function of the session layer; what it showed goes to the
    terminal, in order. *)
Definition call {A} (m : M World A) : M Term A :=
  fun s => let (r, w) := m (world s) in
           (r, mkTerm (lines s ++ (Printed <$> drop (length (shown (world s))) (shown w))) w).

(** [show_stats()] *)
Definition show_stats : M Term unit :=
  results <- call Cli.load_results ;;
  if (size results =? 0)%nat then say SayNoStats
  else say SayStatsHeader ;;; say (SayStatsRows (stats_row <$> results)).

(** Lines 148-155 of [main]: the table is asked for and practised.  A text
    that [int] rejects raises the [ValueError] that line 154 catches. *)
Definition choose_table : M Term unit :=
  except_ValueError
    (entry <- read AskTable ;;
     match py_int entry with
     | None => say SayValidNumber
     | Some table =>
         if (2 <=? table) && (table <=? 12) then call (Cli.practice_table table)
         else say SayChooseRange
     end)
    (say SayValidNumber).

(** [while True: ...] of [main].  Every turn reads a line, so the loop
    takes at most one turn more than there are lines of input. *)
Fixpoint main_loop (turns : nat) : M Term unit :=
  match turns with
  | O => ret tt
  | S turns' =>
      say SayMenu ;;;
      choice <- read AskChoice ;;
      if String.eqb choice "1" then choose_table ;;; main_loop turns'
      else if String.eqb choice "2" then show_stats ;;; main_loop turns'
      else if String.eqb choice "3" then say SayGoodbye
      else say SayInvalidChoice ;;; main_loop turns'
  end.

(** [main()] *)
Definition main : M Term unit :=
  fun s => main_loop (S (length (stdin (world s)))) s.

End Menu.
End Menu.

(** ** Vocabulary of the further statements *)

(** Sessions of one table merged one after the other. *)
Definition gui_merges (key : string) (sessions : list (bool * float)) (r : Store) : Store :=
  foldl (fun r s => Gui.record_session key s.1 s.2 r) r sessions.

Definition cli_merges (key : string) (sessions : list (Z * float)) (r : Store) : Store :=
  foldl (fun r s => (Cli.record_session key s.1 s.2 r).2) r sessions.

(** How often a property holds in a list. *)
Definition count {A} (P : A -> bool) (l : list A) : Z :=
  Z.of_nat (length (filter (fun x => P x = true) l)).

(** The terminal of the reference runtime before anything was printed. *)
Definition term_of (w : World (L := ref_lib)) : Menu.Term (L := ref_lib) :=
  Menu.mkTerm [] w.

(** The verdict a line of the terminal announces, if it announces one. *)
Definition told (l : Line) : option bool :=
  match l with
  | Printed e => judged e
  | _ => None
  end.

(** A first screen of the reference runtime, and a store with a best time
    of zero. *)
Definition tk0 (w : World (L := ref_lib)) : Gui.Tk (L := ref_lib) :=
  Gui.mkTk Gui.init w.

Definition zero_store : Store := {[ "3" := mkStats 1 1 0 (Some 0%float) ]}.

(** ** The draws behind an outcome

    What a call into [random] takes from the source is a sequence of
    results of [_randbelow]: [draws ns g] are the results of successive
    calls with the bounds [ns].  The library draws each uniformly below
    its bound and independently of the others. *)
Fixpoint draws (ns : list nat) (g : Gen) : list nat :=
  match ns with
  | [] => []
  | n :: ns' => let (j, g') := randbelow n g in j :: draws ns' g'
  end.

(** The bounds of the draws of [shuffle_from i]: [i + 1, i, ..., 2]. *)
Fixpoint shuffle_bounds (i : nat) : list nat :=
  match i with
  | O => []
  | S i' => S i :: shuffle_bounds i'
  end.

(** The bounds of the draws of [sample_from m k]: [m, m - 1, ...], [k] of
    them. *)
Fixpoint sample_bounds (m k : nat) : list nat :=
  match k with
  | O => []
  | S k' => m :: sample_bounds (m - 1) k'
  end.

(** A random source that yields the given raw values, in order. *)
Definition oracle (raws : list nat) : Gen :=
  mkGen (fun i => default O (raws !! i)) 0.

(** The feed [f] yields the values [js] from its [d]-th draw on. *)
Definition follows (f : nat -> nat) (d : nat) (js : list nat) : Prop :=
  forall k j, js !! k = Some j -> f (d + k)%nat = j.

(** * Proofs *)

(** ** The random library *)

Section RandomFacts.
Context {A : Type}.
Implicit Types (x pool population : list A) (g : Gen).

Lemma randbelow_lt n g : (0 < n)%nat → ((randbelow n g).1 < n)%nat.
Proof. intros Hn. simpl. apply Nat.mod_upper_bound. lia. Qed.

Lemma swap_Permutation i j x : swap i j x ≡ₚ x.
Proof.
  unfold swap.
  destruct (x !! i) as [xi|] eqn:Hi; [|done].
  destruct (x !! j) as [xj|] eqn:Hj; [|done].
  by apply Permutation_insert_swap.
Qed.

Lemma shuffle_from_Permutation i x g : (shuffle_from i x g).1 ≡ₚ x.
Proof.
  revert x g. induction i as [|i IH]; intros x g; [done|].
  cbn [shuffle_from]. destruct (randbelow (S (S i)) g) as [j g'].
  rewrite IH. apply swap_Permutation.
Qed.

Lemma shuffle_Permutation x g : (shuffle x g).1 ≡ₚ x.
Proof. apply shuffle_from_Permutation. Qed.

(** One step of the pool loop: the item picked leaves the unselected
    prefix, and the last unselected item fills its place. *)
Lemma pool_step pool m j pj plast :
  pool !! j = Some pj → pool !! m = Some plast → (j ≤ m)%nat →
  take (S m) pool ≡ₚ pj :: take m (<[j := plast]> pool).
Proof.
  intros Hj Hm Hle.
  rewrite (take_S_r _ _ _ Hm).
  destruct (decide (j = m)) as [->|Hne].
  - rewrite take_insert_ge by lia. simplify_eq.
    by rewrite Permutation_app_comm.
  - rewrite take_insert_lt by lia.
    assert (Hlen : length (take m pool) = m).
    { apply length_take_le. apply lookup_lt_Some in Hm. lia. }
    pose proof (Permutation_insert_swap (take m pool ++ [plast]) j m pj plast) as Hs.
    rewrite insert_app_l in Hs by lia.
    rewrite insert_app_r_alt in Hs by (rewrite length_insert; lia).
    rewrite length_insert, Hlen, Nat.sub_diag in Hs. simpl in Hs.
    rewrite <- Hs.
    + by rewrite Permutation_app_comm.
    + rewrite lookup_app_l by lia. rewrite lookup_take_lt by lia. done.
    + rewrite lookup_app_r by lia. by rewrite Hlen, Nat.sub_diag.
Qed.

(** The sample has [k] items, and they come out of the unselected prefix
    without being used twice. *)
Lemma sample_from_spec k : ∀ m pool g,
  (k ≤ m)%nat → (m ≤ length pool)%nat →
  length (sample_from m k pool g).1 = k ∧
  ∃ rest, take m pool ≡ₚ (sample_from m k pool g).1 ++ rest.
Proof.
  induction k as [|k IH]; intros m pool g Hk Hm.
  { split; [done|]. by exists (take m pool). }
  destruct m as [|m]; [lia|].
  cbn [sample_from].
  pose proof (randbelow_lt (S m) g ltac:(lia)) as Hj.
  destruct (randbelow (S m) g) as [j g1]. simpl in Hj.
  replace (S m - 1)%nat with m by lia.
  destruct (lookup_lt_is_Some_2 pool j ltac:(lia)) as [pj Hpj].
  destruct (lookup_lt_is_Some_2 pool m ltac:(lia)) as [pl Hpl].
  rewrite Hpj, Hpl.
  destruct (IH m (<[j := pl]> pool) g1 ltac:(lia)
              ltac:(rewrite length_insert; lia)) as [Hlen [rest Hrest]].
  destruct (sample_from m k (<[j:=pl]> pool) g1) as [r g2]. simpl in *.
  split; [by rewrite Hlen|].
  exists rest. rewrite (pool_step pool m j pj pl) by (done || lia).
  by rewrite Hrest.
Qed.

Lemma sample_length population k g :
  (k ≤ length population)%nat → length (sample population k g).1 = k.
Proof. intros Hk. by apply sample_from_spec. Qed.

Lemma sample_sub population k g :
  (k ≤ length population)%nat → ∃ rest, population ≡ₚ (sample population k g).1 ++ rest.
Proof.
  intros Hk. destruct (sample_from_spec k (length population) population g Hk) as [_ [rest H]]; [done|].
  exists rest. by rewrite firstn_all in H.
Qed.

Lemma sample_NoDup population k g :
  (k ≤ length population)%nat → NoDup population → NoDup (sample population k g).1.
Proof.
  intros Hk Hnd. destruct (sample_sub population k g Hk) as [rest H].
  rewrite H in Hnd. by apply NoDup_app in Hnd as [? _].
Qed.

Lemma sample_elem_of population k g a :
  (k ≤ length population)%nat → a ∈ (sample population k g).1 → a ∈ population.
Proof.
  intros Hk Ha. destruct (sample_sub population k g Hk) as [rest H].
  rewrite H. apply elem_of_app. by left.
Qed.

Lemma repeat_draw_length n (f : Gen → A * Gen) g : length (repeat_draw n f g).1 = n.
Proof.
  revert g. induction n as [|n IH]; intros g; [done|].
  cbn [repeat_draw]. destruct (f g) as [a g1]. specialize (IH g1).
  destruct (repeat_draw n f g1). simpl in *. by rewrite IH.
Qed.

Lemma repeat_draw_Forall (P : A → Prop) n (f : Gen → A * Gen) g :
  (∀ g', P (f g').1) → Forall P (repeat_draw n f g).1.
Proof.
  intros Hf. revert g. induction n as [|n IH]; intros g; [constructor|].
  cbn [repeat_draw]. pose proof (Hf g) as Ha. destruct (f g) as [a g1].
  specialize (IH g1). destruct (repeat_draw n f g1). simpl in *. by constructor.
Qed.

End RandomFacts.

(** ** Problem generation *)

Section Generation.
Implicit Types (t m : Z) (g : Gen) (p : Problem).

Lemma elem_of_range m (n : nat) : m ∈ range n ↔ 0 ≤ m < Z.of_nat n.
Proof. unfold range. rewrite elem_of_seqZ. lia. Qed.

Lemma fixed_length t : length ((λ i, (t, i)) <$> range 13) = 13%nat.
Proof. reflexivity. Qed.

Lemma fixed_multipliers t : ((λ i, (t, i)) <$> range 13).*2 = range 13.
Proof. reflexivity. Qed.

Lemma fixed_NoDup t : NoDup ((λ i : Z, (t, i)) <$> range 13).
Proof.
  apply NoDup_fmap_2; [intros i j; congruence|]. apply NoDup_seqZ.
Qed.

Lemma elem_of_fixed t p :
  p ∈ (λ i, (t, i)) <$> range 13 ↔ p.1 = t ∧ 0 ≤ p.2 ≤ 12.
Proof.
  rewrite list_elem_of_fmap. setoid_rewrite elem_of_range. split.
  - intros (i & -> & Hi). simpl. lia.
  - intros [<- Hp]. exists p.2. split; [by destruct p|lia].
Qed.

Lemma randint_0_12 g : 0 ≤ (randint 0 12 g).1 ≤ 12.
Proof.
  unfold randint. pose proof (randbelow_lt 13 g ltac:(lia)) as H.
  change (Z.to_nat (12 - 0 + 1)) with 13%nat.
  destruct (randbelow 13 g) as [r g']. simpl in *. lia.
Qed.

Lemma cli_extra_length t g : length (Cli.extra_problems t g).1 = 7%nat.
Proof. apply repeat_draw_length. Qed.

Lemma cli_extra_Forall t g :
  Forall (λ p, p.1 = t ∧ 0 ≤ p.2 ≤ 12) (Cli.extra_problems t g).1.
Proof.
  apply repeat_draw_Forall. intros g'.
  pose proof (randint_0_12 g') as H. destruct (randint 0 12 g'). done.
Qed.

(** The draws are independent: whatever seven multipliers in range are
    asked for, some random source yields them, in that order. *)
Lemma draws_follow_feed t (ms : list Z) (f : nat → nat) (d : nat) :
  Forall (λ m, 0 ≤ m ≤ 12) ms →
  (∀ i m, ms !! i = Some m → f (d + i)%nat = Z.to_nat m) →
  (repeat_draw (length ms)
     (λ g, let (m, g') := randint 0 12 g in ((t, m), g')) (mkGen f d)).1
  = (λ m, (t, m)) <$> ms.
Proof.
  revert d. induction ms as [|m ms IH]; intros d Hms Hf; [done|].
  apply Forall_cons in Hms as [Hm Hms].
  cbn [length repeat_draw]. unfold randint.
  change (Z.to_nat (12 - 0 + 1)) with 13%nat. unfold randbelow at 1.
  cbn [feed drawn].
  specialize (IH (S d) Hms).
  destruct (repeat_draw _ _ (mkGen f (S d))) as [xs g2]. simpl in IH.
  cbn [fst fmap list_fmap]. f_equal.
  - f_equal. pose proof (Hf 0%nat m eq_refl) as H0.
    rewrite Nat.add_0_r in H0. rewrite H0.
    rewrite Nat.mod_small by lia. lia.
  - apply IH. intros i m' Hi. rewrite <- (Hf (S i) m' Hi). f_equal. lia.
Qed.

Lemma cli_extra_any t (ms : list Z) :
  length ms = 7%nat → Forall (λ m, 0 ≤ m ≤ 12) ms →
  ∃ g, (Cli.extra_problems t g).1 = (λ m, (t, m)) <$> ms.
Proof.
  intros Hlen Hms.
  exists (mkGen (λ i, Z.to_nat (default 0 (ms !! i))) 0).
  unfold Cli.extra_problems. rewrite <- Hlen.
  apply draws_follow_feed; [done|]. intros i m Hi. simpl. by rewrite Hi.
Qed.

Lemma gui_extra_length t g : length (Gui.extra_problems t g).1 = 7%nat.
Proof. apply sample_length. rewrite fixed_length. lia. Qed.

Lemma gui_extra_NoDup t g : NoDup (Gui.extra_problems t g).1.*2.
Proof.
  assert (Hnd : NoDup (Gui.extra_problems t g).1).
  { apply sample_NoDup; [rewrite fixed_length; lia|apply fixed_NoDup]. }
  assert (Hin : ∀ p, p ∈ (Gui.extra_problems t g).1 → p.1 = t).
  { intros p Hp. apply sample_elem_of in Hp; [|rewrite fixed_length; lia].
    by apply elem_of_fixed in Hp as [? _]. }
  revert Hnd Hin. generalize (Gui.extra_problems t g).1. intros l Hnd Hin.
  apply NoDup_fmap_2_strong; [|done].
  intros [a b] [a' b'] Hp Hp' Heq. simpl in Heq. subst.
  apply Hin in Hp, Hp'. simpl in *. congruence.
Qed.

Lemma gui_extra_Forall t g :
  Forall (λ p, p.1 = t ∧ 0 ≤ p.2 ≤ 12) (Gui.extra_problems t g).1.
Proof.
  apply Forall_forall. intros p Hp. apply elem_of_fixed.
  eapply sample_elem_of; [|done]. rewrite fixed_length. lia.
Qed.

Lemma cli_generate_Permutation t g :
  (Cli.generate_problems t g).1
  ≡ₚ ((λ i, (t, i)) <$> range 13) ++ (Cli.extra_problems t g).1.
Proof.
  unfold Cli.generate_problems. destruct (Cli.extra_problems t g) as [extra g1].
  apply shuffle_Permutation.
Qed.

Lemma gui_prepare_Permutation t g :
  (Gui.prepare_problems t g).1
  ≡ₚ ((λ i, (t, i)) <$> range 13) ++ (Gui.extra_problems t g).1.
Proof.
  unfold Gui.prepare_problems, Gui.extra_problems.
  destruct (sample _ 7 g) as [extra g1]. apply shuffle_Permutation.
Qed.

(** What follows from being a shuffle of the thirteen fixed problems and
    seven more of the same table. *)
Lemma twenty_problems t (ps extra : list Problem) :
  ps ≡ₚ ((λ i, (t, i)) <$> range 13) ++ extra →
  length extra = 7%nat →
  Forall (λ p, p.1 = t ∧ 0 ≤ p.2 ≤ 12) extra →
  length ps = 20%nat ∧
  (∀ p, p ∈ ps → p.1 = t ∧ 0 ≤ p.2 ≤ 12) ∧
  (∀ m, 0 ≤ m ≤ 12 → m ∈ ps.*2).
Proof.
  intros Hps Hlen Hextra. split; [|split].
  - rewrite Hps, length_app, fixed_length, Hlen. done.
  - intros p. rewrite Hps, elem_of_app. intros [Hp|Hp].
    + by apply elem_of_fixed.
    + by apply (proj1 (Forall_forall _ _) Hextra).
  - intros m Hm. rewrite Hps, fmap_app, elem_of_app. left.
    rewrite fixed_multipliers. apply elem_of_range. lia.
Qed.

End Generation.

(** ** Which outcomes the random library has

    Every order is an outcome of [shuffle] and every selection without
    repetition an outcome of [sample], and each comes from exactly one
    sequence of results of [_randbelow]: outcomes and sequences of draws
    correspond one to one. *)

Section Outcomes.
Context {A : Type}.
Implicit Types (x y pool population ys : list A) (g : Gen) (js : list nat).

Lemma follows_nil f d : follows f d [].
Proof. intros k j H. done. Qed.

Lemma follows_cons f d j js :
  follows f d (j :: js) ↔ f d = j ∧ follows f (S d) js.
Proof.
  split.
  - intros H. split.
    + rewrite <- (H 0%nat j eq_refl). f_equal. lia.
    + intros k j' Hk. rewrite <- (H (S k) j' Hk). f_equal. lia.
  - intros [H0 H] [|k] j' Hk; simplify_eq/=.
    + f_equal. lia.
    + rewrite <- (H k j' Hk). f_equal. lia.
Qed.

Lemma follows_app f d js ks :
  follows f d (js ++ ks) ↔ follows f d js ∧ follows f (d + length js) ks.
Proof.
  revert d. induction js as [|j js IH]; intros d; simpl.
  - rewrite Nat.add_0_r. split; [intros H; split; [apply follows_nil|done]|by intros [_ ?]].
  - rewrite !follows_cons, IH. replace (d + S (length js))%nat with (S d + length js)%nat by lia.
    tauto.
Qed.

Lemma oracle_follows raws : follows (feed (oracle raws)) 0 raws.
Proof. intros k j H. simpl. by rewrite H. Qed.

Lemma draws_length ns g : length (draws ns g) = length ns.
Proof.
  revert g. induction ns as [|n ns IH]; intros g; [done|].
  cbn [draws]. destruct (randbelow n g) as [j g']. simpl. by rewrite IH.
Qed.

Lemma draws_follow ns : ∀ js f d,
  Forall2 lt js ns → follows f d js → draws ns (mkGen f d) = js.
Proof.
  induction ns as [|n ns IH]; intros js f d Hlt Hf.
  - by apply Forall2_nil_inv_r in Hlt as ->.
  - apply Forall2_cons_inv_r in Hlt as (j & js' & Hj & Hlt & ->).
    apply follows_cons in Hf as [H0 Hf].
    cbn [draws]. unfold randbelow. cbn [feed drawn].
    rewrite H0, Nat.mod_small by done. f_equal. by apply IH.
Qed.

(** The results of the draws lie below their bounds, and every sequence
    below the bounds is the result of some random source. *)
Lemma draws_lt ns g : Forall (lt 0) ns → Forall2 lt (draws ns g) ns.
Proof.
  revert g. induction ns as [|n ns IH]; intros g Hns; [constructor|].
  apply Forall_cons in Hns as [Hn Hns]. cbn [draws].
  pose proof (randbelow_lt n g Hn) as Hj.
  destruct (randbelow n g) as [j g']. constructor; [done|by apply IH].
Qed.

Lemma draws_any ns js : Forall2 lt js ns → ∃ g, draws ns g = js.
Proof.
  intros Hlt. exists (oracle js).
  apply (draws_follow ns js _ 0 Hlt). apply oracle_follows.
Qed.

Lemma swap_length i j x : length (swap i j x) = length x.
Proof.
  unfold swap. destruct (x !! i), (x !! j); try done.
  by rewrite !length_insert.
Qed.

(** Positions above both indices are not touched by a swap. *)
Lemma swap_lookup_gt i j k x :
  (i < k)%nat → (j < k)%nat → swap i j x !! k = x !! k.
Proof.
  intros Hi Hj. unfold swap. destruct (x !! i), (x !! j); try done.
  rewrite !list_lookup_insert_ne by lia. done.
Qed.

(** After [x[i], x[j] = x[j], x[i]], position [i] holds the old [x[j]]. *)
Lemma swap_lookup_i i j x xj :
  (i < length x)%nat → x !! j = Some xj → swap i j x !! i = Some xj.
Proof.
  intros Hi Hj. unfold swap.
  destruct (lookup_lt_is_Some_2 x i Hi) as [xi Hxi]. rewrite Hxi, Hj.
  destruct (decide (i = j)) as [->|Hne].
  - simplify_eq. rewrite list_lookup_insert_eq by (rewrite length_insert; done). done.
  - rewrite list_lookup_insert_ne by done.
    by rewrite list_lookup_insert_eq by done.
Qed.

(** Below position [i], the swap only puts the old [x[i]] at [j]. *)
Lemma swap_take i j x xi :
  x !! i = Some xi → (j ≤ i)%nat → is_Some (x !! j) →
  take i (swap i j x) = take i (<[j := xi]> x).
Proof.
  intros Hi Hj [xj Hxj]. unfold swap. rewrite Hi, Hxj.
  destruct (decide (j = i)) as [->|Hne].
  - rewrite list_insert_insert_eq. done.
  - rewrite list_insert_insert_ne by done. rewrite take_insert_ge by lia. done.
Qed.

Lemma shuffle_from_lookup_gt i : ∀ x g k,
  (i < k)%nat → (shuffle_from i x g).1 !! k = x !! k.
Proof.
  induction i as [|i IH]; intros x g k Hk; [done|].
  cbn [shuffle_from].
  pose proof (randbelow_lt (S (S i)) g ltac:(lia)) as Hj.
  destruct (randbelow (S (S i)) g) as [j g']. simpl in Hj.
  rewrite IH by lia. apply swap_lookup_gt; lia.
Qed.

(** Every order of the first [i + 1] items is reached by the iterations
    [i, ..., 1], for one sequence of draws below the bounds. *)
Lemma shuffle_from_reach i : ∀ x y,
  (i ≤ length x - 1)%nat → length y = length x →
  take (S i) y ≡ₚ take (S i) x → drop (S i) y = drop (S i) x →
  ∃ js, Forall2 lt js (shuffle_bounds i) ∧
    ∀ f d, follows f d js →
      shuffle_from i x (mkGen f d) = (y, mkGen f (d + length js)).
Proof.
  induction i as [|i IH]; intros x y Hi Hlen Htake Hdrop.
  - exists []. split; [constructor|]. intros f d _. simpl.
    rewrite Nat.add_0_r. f_equal.
    rewrite <- (take_drop 1 x), <- (take_drop 1 y), Hdrop. f_equal.
    destruct x as [|a x], y as [|b y]; simplify_eq/=; try done.
    apply Permutation_singleton_l in Htake. by simplify_eq.
  - assert (Hix : (S i < length x)%nat).
    { destruct x; simpl in *; [|lia].
      destruct y; simplify_eq/=. lia. }
    destruct (lookup_lt_is_Some_2 y (S i) ltac:(lia)) as [v Hv].
    destruct (lookup_lt_is_Some_2 x (S i) Hix) as [xi Hxi].
    assert (Hin : v ∈ take (S (S i)) x).
    { rewrite <- Htake. apply list_elem_of_lookup. exists (S i).
      rewrite lookup_take_lt by lia. done. }
    apply list_elem_of_lookup in Hin as [j Hj].
    apply lookup_take_Some in Hj as [Hj Hjlt].
    assert (Hstep : take (S (S i)) x ≡ₚ v :: take (S i) (swap (S i) j x)).
    { rewrite (swap_take (S i) j x xi) by (done || lia || eauto).
      apply pool_step; (done || lia). }
    destruct (IH (swap (S i) j x) y) as (js & Hlt & Hrun).
    + rewrite swap_length. lia.
    + by rewrite swap_length.
    + apply (Permutation_cons_inv (a := v)).
      rewrite <- Hstep, <- Htake.
      rewrite (take_S_r y (S i) v Hv). by rewrite Permutation_app_comm.
    + rewrite (drop_S y v (S i) Hv).
      rewrite (drop_S (swap (S i) j x) v (S i)) by (by apply swap_lookup_i).
      f_equal. rewrite Hdrop.
      apply list_eq. intros k. rewrite !lookup_drop.
      symmetry. apply swap_lookup_gt; lia.
    + exists (j :: js). split; [constructor; [lia|done]|].
      intros f d Hf. apply follows_cons in Hf as [H0 Hf].
      cbn [shuffle_from]. unfold randbelow. cbn [feed drawn].
      rewrite H0, Nat.mod_small by lia.
      rewrite (Hrun f (S d) Hf). f_equal. f_equal. simpl. lia.
Qed.

Lemma shuffle_reach x y :
  y ≡ₚ x →
  ∃ js, Forall2 lt js (shuffle_bounds (length x - 1)) ∧
    ∀ f d, follows f d js →
      shuffle x (mkGen f d) = (y, mkGen f (d + length js)).
Proof.
  intros Hp. unfold shuffle. apply shuffle_from_reach.
  - done.
  - by rewrite Hp.
  - rewrite !take_ge; [done| |rewrite Hp]; lia.
  - rewrite !drop_ge; [done| |rewrite Hp]; lia.
Qed.

(** Two runs of the iterations [i, ..., 1] on items without repetition
    that end in the same order drew the same. *)
Lemma shuffle_from_inj i : ∀ x g g',
  NoDup x → (i ≤ length x - 1)%nat →
  (shuffle_from i x g).1 = (shuffle_from i x g').1 →
  draws (shuffle_bounds i) g = draws (shuffle_bounds i) g'.
Proof.
  induction i as [|i IH]; intros x g g' Hnd Hi Heq; [done|].
  assert (Hix : (S i < length x)%nat) by (destruct x; simpl in *; lia).
  cbn [shuffle_from shuffle_bounds draws] in *.
  pose proof (randbelow_lt (S (S i)) g ltac:(lia)) as Hj.
  pose proof (randbelow_lt (S (S i)) g' ltac:(lia)) as Hj'.
  destruct (randbelow (S (S i)) g) as [j g1].
  destruct (randbelow (S (S i)) g') as [j' g1']. simpl in Hj, Hj'.
  destruct (lookup_lt_is_Some_2 x j ltac:(lia)) as [xj Hxj].
  destruct (lookup_lt_is_Some_2 x j' ltac:(lia)) as [xj' Hxj'].
  assert (Hsame : j = j').
  { apply (NoDup_lookup x j j' xj Hnd Hxj).
    pose proof (f_equal (λ l, l !! S i) Heq) as Hk. simpl in Hk.
    rewrite !shuffle_from_lookup_gt in Hk by lia.
    rewrite (swap_lookup_i (S i) j x xj Hix Hxj) in Hk.
    rewrite (swap_lookup_i (S i) j' x xj' Hix Hxj') in Hk.
    congruence. }
  subst j'. f_equal.
  apply (IH (swap (S i) j x)); [|rewrite swap_length; lia|done].
  by rewrite swap_Permutation.
Qed.

Lemma shuffle_inj x g g' :
  NoDup x → (shuffle x g).1 = (shuffle x g').1 →
  draws (shuffle_bounds (length x - 1)) g = draws (shuffle_bounds (length x - 1)) g'.
Proof. intros Hnd. by apply shuffle_from_inj. Qed.

(** Every selection of [k] different unselected items, in every order, is
    reached by the pool loop, for one sequence of draws below the bounds. *)
Lemma sample_from_reach k : ∀ m pool ys,
  (k ≤ m)%nat → (m ≤ length pool)%nat → NoDup (take m pool) →
  length ys = k → NoDup ys → ys ⊆ take m pool →
  ∃ js, Forall2 lt js (sample_bounds m k) ∧
    ∀ f d, follows f d js →
      sample_from m k pool (mkGen f d) = (ys, mkGen f (d + length js)).
Proof.
  induction k as [|k IH]; intros m pool ys Hk Hm Hnd Hlen Hys Hsub.
  - exists []. split; [constructor|]. intros f d _. simpl.
    rewrite Nat.add_0_r. by destruct ys.
  - destruct ys as [|y ys]; simplify_eq/=.
    destruct m as [|m]; [lia|].
    apply NoDup_cons in Hys as [Hy Hys].
    assert (Hin : y ∈ take (S m) pool) by (apply Hsub; left).
    apply list_elem_of_lookup in Hin as [j Hj].
    apply lookup_take_Some in Hj as [Hj Hjlt].
    destruct (lookup_lt_is_Some_2 pool m ltac:(lia)) as [pl Hpl].
    pose proof (pool_step pool m j y pl Hj Hpl ltac:(lia)) as Hstep.
    rewrite Hstep in Hnd. apply NoDup_cons in Hnd as [Hynot Hnd].
    destruct (IH m (<[j := pl]> pool) ys) as (js & Hlt & Hrun);
      try done; try lia.
    + rewrite length_insert. lia.
    + intros z Hz. assert (Hz' : z ∈ take (S m) pool) by (apply Hsub; by right).
      rewrite Hstep in Hz'. apply elem_of_cons in Hz' as [->|?]; done.
    + exists (j :: js). split.
      { cbn [sample_bounds]. rewrite Nat.sub_1_r. simpl. by constructor. }
      intros f d Hf. apply follows_cons in Hf as [H0 Hf].
      cbn [sample_from]. unfold randbelow. cbn [feed drawn].
      rewrite H0, Nat.mod_small by lia.
      replace (S m - 1)%nat with m by lia. rewrite Hj, Hpl.
      rewrite (Hrun f (S d) Hf). f_equal. f_equal. simpl. lia.
Qed.

Lemma sample_reach population k ys :
  NoDup population → length ys = k → NoDup ys → ys ⊆ population →
  ∃ js, Forall2 lt js (sample_bounds (length population) k) ∧
    ∀ f d, follows f d js →
      sample population k (mkGen f d) = (ys, mkGen f (d + length js)).
Proof.
  intros Hnd Hlen Hys Hsub. unfold sample. apply sample_from_reach; try done.
  - rewrite <- Hlen. apply submseteq_length.
    by apply NoDup_submseteq.
  - by rewrite firstn_all.
  - by rewrite firstn_all.
Qed.

(** Two runs of the pool loop over different items that select the same,
    in the same order, drew the same. *)
Lemma sample_from_inj k : ∀ m pool g g',
  (k ≤ m)%nat → (m ≤ length pool)%nat → NoDup (take m pool) →
  (sample_from m k pool g).1 = (sample_from m k pool g').1 →
  draws (sample_bounds m k) g = draws (sample_bounds m k) g'.
Proof.
  induction k as [|k IH]; intros m pool g g' Hk Hm Hnd Heq; [done|].
  destruct m as [|m]; [lia|].
  cbn [sample_from sample_bounds draws] in *.
  pose proof (randbelow_lt (S m) g ltac:(lia)) as Hj.
  pose proof (randbelow_lt (S m) g' ltac:(lia)) as Hj'.
  destruct (randbelow (S m) g) as [j g1].
  destruct (randbelow (S m) g') as [j' g1']. simpl in Hj, Hj'.
  replace (S m - 1)%nat with m in * by lia.
  destruct (lookup_lt_is_Some_2 pool j ltac:(lia)) as [pj Hpj].
  destruct (lookup_lt_is_Some_2 pool j' ltac:(lia)) as [pj' Hpj'].
  destruct (lookup_lt_is_Some_2 pool m ltac:(lia)) as [pl Hpl].
  rewrite Hpj, Hpj', Hpl in Heq.
  destruct (sample_from m k (<[j:=pl]> pool) g1) as [r g2] eqn:Hr.
  destruct (sample_from m k (<[j':=pl]> pool) g1') as [r' g2'] eqn:Hr'.
  simpl in Heq. simplify_eq.
  assert (Hsame : j = j').
  { apply (NoDup_lookup (take (S m) pool) j j' pj' Hnd);
      rewrite lookup_take_lt by lia; done. }
  subst j'. f_equal.
  apply (IH m (<[j := pl]> pool)); try lia.
  - rewrite length_insert. lia.
  - rewrite (pool_step pool m j pj' pl) in Hnd by (done || lia).
    by apply NoDup_cons in Hnd as [_ ?].
  - by rewrite Hr, Hr'.
Qed.

Lemma sample_inj population k g g' :
  (k ≤ length population)%nat → NoDup population →
  (sample population k g).1 = (sample population k g').1 →
  draws (sample_bounds (length population) k) g
  = draws (sample_bounds (length population) k) g'.
Proof.
  intros Hk Hnd. apply sample_from_inj; [done|done|by rewrite firstn_all].
Qed.

End Outcomes.

(** The shuffle moves positions, whatever they hold: shuffling the images
    of items is shuffling the items. *)
Lemma swap_fmap {A B} (h : A → B) i j (x : list A) :
  swap i j (h <$> x) = h <$> swap i j x.
Proof.
  unfold swap. rewrite !list_lookup_fmap.
  destruct (x !! i), (x !! j); simpl; try done.
  by rewrite !list_fmap_insert.
Qed.

Lemma shuffle_from_fmap {A B} (h : A → B) i : ∀ (x : list A) g,
  shuffle_from i (h <$> x) g
  = (h <$> (shuffle_from i x g).1, (shuffle_from i x g).2).
Proof.
  induction i as [|i IH]; intros x g; [done|].
  cbn [shuffle_from]. destruct (randbelow (S (S i)) g) as [j g'].
  rewrite swap_fmap. apply IH.
Qed.

Lemma shuffle_fmap {A B} (h : A → B) (x : list A) g :
  (shuffle (h <$> x) g).1 = h <$> (shuffle x g).1.
Proof. unfold shuffle. rewrite length_fmap, shuffle_from_fmap. done. Qed.

(** The order a shuffle leaves is the order it gives the positions. *)
Lemma shuffle_positions {A} (x : list A) g :
  Some <$> (shuffle x g).1 = (λ i, x !! i) <$> (shuffle (seq 0 (length x)) g).1.
Proof.
  rewrite <- shuffle_fmap, <- shuffle_fmap. do 2 f_equal.
  apply list_eq. intros k. rewrite !list_lookup_fmap.
  destruct (decide (k < length x)%nat) as [Hk|Hk].
  - rewrite lookup_seq_lt by done. simpl.
    destruct (lookup_lt_is_Some_2 x k Hk) as [a Ha]. by rewrite Ha.
  - rewrite lookup_seq_ge by lia. rewrite lookup_ge_None_2 by lia. done.
Qed.

(** ** Which problem lists the two front ends generate *)

Section GenerationOutcomes.
Implicit Types (t m : Z) (g : Gen) (p : Problem).

(** The seven multipliers of the command-line front end are the results
    of seven draws below 13, in order. *)
Lemma repeat_randint_draws t n g :
  (repeat_draw n (λ g, let (m, g') := randint 0 12 g in ((t, m), g')) g).1
  = (λ j, (t, Z.of_nat j)) <$> draws (replicate n 13%nat) g.
Proof.
  revert g. induction n as [|n IH]; intros g; [done|].
  cbn [repeat_draw replicate draws]. unfold randint.
  change (Z.to_nat (12 - 0 + 1)) with 13%nat.
  destruct (randbelow 13 g) as [j g1]. specialize (IH g1).
  destruct (repeat_draw n _ g1) as [xs g2]. simpl in *. by rewrite IH.
Qed.

Lemma cli_extra_draws t g :
  (Cli.extra_problems t g).1
  = (λ j, (t, Z.of_nat j)) <$> draws (replicate 7 13%nat) g.
Proof. apply repeat_randint_draws. Qed.

Lemma randint_run f d m :
  0 ≤ m ≤ 12 → f d = Z.to_nat m → randint 0 12 (mkGen f d) = (m, mkGen f (S d)).
Proof.
  intros Hm H0. unfold randint. change (Z.to_nat (12 - 0 + 1)) with 13%nat.
  unfold randbelow. cbn [feed drawn]. rewrite H0, Nat.mod_small by lia.
  f_equal. lia.
Qed.

Lemma repeat_randint_run t (ms : list Z) f d :
  Forall (λ m, 0 ≤ m ≤ 12) ms → follows f d (Z.to_nat <$> ms) →
  repeat_draw (length ms)
    (λ g, let (m, g') := randint 0 12 g in ((t, m), g')) (mkGen f d)
  = ((λ m, (t, m)) <$> ms, mkGen f (d + length ms)).
Proof.
  revert d. induction ms as [|m ms IH]; intros d Hms Hf.
  { simpl. by rewrite Nat.add_0_r. }
  apply Forall_cons in Hms as [Hm Hms].
  rewrite fmap_cons in Hf. apply follows_cons in Hf as [H0 Hf].
  cbn [length repeat_draw]. rewrite (randint_run f d m Hm H0).
  rewrite (IH (S d) Hms Hf). simpl. do 2 f_equal. lia.
Qed.

(** Every choice of seven multipliers and every order of the twenty
    problems is an outcome of [generate_problems]. *)
Lemma cli_generate_reach t (ms : list Z) (y : list Problem) :
  length ms = 7%nat → Forall (λ m, 0 ≤ m ≤ 12) ms →
  y ≡ₚ ((λ i, (t, i)) <$> range 13) ++ ((λ m, (t, m)) <$> ms) →
  ∃ g, (Cli.extra_problems t g).1 = (λ m, (t, m)) <$> ms ∧
       (Cli.generate_problems t g).1 = y.
Proof.
  intros Hlen Hms Hy.
  destruct (shuffle_reach _ y Hy) as (js & _ & Hrun).
  exists (oracle ((Z.to_nat <$> ms) ++ js)).
  pose proof (oracle_follows ((Z.to_nat <$> ms) ++ js)) as Hf.
  apply follows_app in Hf as [Hf1 Hf2].
  pose proof (repeat_randint_run t ms _ 0 Hms Hf1) as Hrun1.
  rewrite length_fmap in Hf2. rewrite Hlen in Hrun1, Hf2.
  unfold Cli.generate_problems, Cli.extra_problems.
  change (oracle ((Z.to_nat <$> ms) ++ js))
    with (mkGen (feed (oracle ((Z.to_nat <$> ms) ++ js))) 0).
  rewrite Hrun1. cbv beta iota zeta. split; [done|].
  by rewrite (Hrun _ _ Hf2).
Qed.

(** Every selection of seven different fixed problems, in every order,
    and every order of the twenty problems is an outcome of the graphical
    front end. *)
Lemma gui_prepare_reach t (ys y : list Problem) :
  NoDup ys → length ys = 7%nat → ys ⊆ (λ i, (t, i)) <$> range 13 →
  y ≡ₚ ((λ i, (t, i)) <$> range 13) ++ ys →
  ∃ g, (Gui.extra_problems t g).1 = ys ∧ (Gui.prepare_problems t g).1 = y.
Proof.
  intros Hnd Hlen Hsub Hy.
  destruct (sample_reach _ 7 ys (fixed_NoDup t) Hlen Hnd Hsub) as (js1 & _ & Hrun1).
  destruct (shuffle_reach _ y Hy) as (js2 & _ & Hrun2).
  exists (oracle (js1 ++ js2)).
  pose proof (oracle_follows (js1 ++ js2)) as Hf.
  apply follows_app in Hf as [Hf1 Hf2].
  unfold Gui.prepare_problems, Gui.extra_problems.
  change (oracle (js1 ++ js2)) with (mkGen (feed (oracle (js1 ++ js2))) 0).
  rewrite (Hrun1 _ _ Hf1). cbv beta iota zeta. split; [done|].
  by rewrite (Hrun2 _ _ Hf2).
Qed.

(** A selection of the graphical front end comes from one sequence of
    draws. *)
Lemma gui_extra_inj t g g' :
  (Gui.extra_problems t g).1 = (Gui.extra_problems t g').1 →
  draws (sample_bounds 13 7) g = draws (sample_bounds 13 7) g'.
Proof.
  intros Heq.
  pose proof (sample_inj ((λ i, (t, i)) <$> range 13) 7 g g') as H.
  rewrite fixed_length in H. apply H; [lia|apply fixed_NoDup|done].
Qed.

(** The order of the twenty problems is the order the shuffle gives their
    positions. *)
Lemma cli_generate_positions t g :
  Some <$> (Cli.generate_problems t g).1
  = (λ i, (((λ i, (t, i)) <$> range 13) ++ (Cli.extra_problems t g).1) !! i)
    <$> (shuffle (seq 0 20) (Cli.extra_problems t g).2).1.
Proof.
  unfold Cli.generate_problems.
  pose proof (cli_extra_length t g) as Hlen.
  destruct (Cli.extra_problems t g) as [extra g1]. cbn [fst snd] in *.
  rewrite shuffle_positions. by rewrite length_app, fixed_length, Hlen.
Qed.

Lemma gui_prepare_positions t g :
  Some <$> (Gui.prepare_problems t g).1
  = (λ i, (((λ i, (t, i)) <$> range 13) ++ (Gui.extra_problems t g).1) !! i)
    <$> (shuffle (seq 0 20) (Gui.extra_problems t g).2).1.
Proof.
  unfold Gui.prepare_problems.
  pose proof (gui_extra_length t g) as Hlen. unfold Gui.extra_problems in *.
  destruct (sample _ 7 g) as [extra g1]. cbn [fst snd] in *.
  rewrite shuffle_positions. by rewrite length_app, fixed_length, Hlen.
Qed.

(** Every order of twenty positions is an outcome of the shuffle, and of
    one sequence of draws. *)
Lemma shuffle_twenty_reach (σ : list nat) :
  σ ≡ₚ seq 0 20 → ∃ g, (shuffle (seq 0 20) g).1 = σ.
Proof.
  intros Hp. destruct (shuffle_reach _ σ Hp) as (js & _ & Hrun).
  exists (oracle js). change (oracle js) with (mkGen (feed (oracle js)) 0).
  by rewrite (Hrun _ _ (oracle_follows js)).
Qed.

Lemma shuffle_twenty_inj g g' :
  (shuffle (seq 0 20) g).1 = (shuffle (seq 0 20) g').1 →
  draws (shuffle_bounds 19) g = draws (shuffle_bounds 19) g'.
Proof. apply (shuffle_inj (seq 0 20)). apply NoDup_seq. Qed.

End GenerationOutcomes.

(** ** The merge of a session into the results *)

Section Merge.
Implicit Types (r : Store) (key : string) (s : TableStats) (e : float).

(** The entry after a session, from the entry before it. *)
Lemma gui_record_lookup key ok e r :
  Gui.record_session key ok e r !! key
  = Some (let s := add_attempt (default fresh_stats (r !! key)) in
          if ok then
            if new_record e (best_time s) then set_best_time e (add_success s)
            else add_success s
          else add_failure s).
Proof.
  unfold Gui.record_session. rewrite lookup_insert_eq.
  destruct ok; simpl; [|done]. by destruct (new_record _ _).
Qed.

Lemma alter_as_insert (f : TableStats → TableStats) key r s :
  r !! key = Some s → alter f key r = <[key := f s]> r.
Proof.
  intros Hs. apply map_eq. intros k. rewrite lookup_alter, lookup_insert.
  case_decide; [subst; by rewrite Hs|done].
Qed.

(** Both front ends merge alike: the command-line block of lines 101-118
    yields the store that lines 150-165 of the graphical one yield. *)
Lemma record_session_agree key c e r :
  (Cli.record_session key c e r).2 = Gui.record_session key (success c e) e r.
Proof.
  unfold Cli.record_session, Gui.record_session.
  set (s0 := default fresh_stats (r !! key)).
  assert (H0 : match r !! key with
               | Some _ => r
               | None => <[key:=fresh_stats]> r
               end = <[key := s0]> r).
  { subst s0. destruct (r !! key) as [s|] eqn:Hs; simpl; [|done].
    symmetry. by apply insert_id. }
  rewrite H0.
  rewrite (alter_as_insert add_attempt key _ s0) by apply lookup_insert_eq.
  rewrite insert_insert_eq.
  destruct (success c e); simpl.
  - rewrite (alter_as_insert add_success key _ (add_attempt s0))
      by apply lookup_insert_eq.
    rewrite insert_insert_eq, lookup_insert_eq. simpl.
    destruct (new_record e (best_time s0)); simpl; [|done].
    rewrite (alter_as_insert _ key _ (add_success (add_attempt s0)))
      by apply lookup_insert_eq.
    by rewrite insert_insert_eq.
  - rewrite (alter_as_insert add_failure key _ (add_attempt s0))
      by apply lookup_insert_eq.
    by rewrite insert_insert_eq.
Qed.

Lemma cli_record_lines key c e r :
  verdict (Cli.record_session key c e r).1 = Some (success c e).
Proof.
  unfold Cli.record_session.
  destruct (success c e); [|done].
  by destruct (new_record _ _).
Qed.

Lemma gui_record_balanced key ok e r :
  map_Forall (λ _, balanced) r →
  map_Forall (λ _, balanced) (Gui.record_session key ok e r).
Proof.
  intros Hr. unfold Gui.record_session. apply map_Forall_insert_2; [|done].
  assert (H0 : balanced (default fresh_stats (r !! key))).
  { destruct (r !! key) as [s|] eqn:Hs; simpl; [by eapply Hr|done]. }
  revert H0. generalize (default fresh_stats (r !! key)). intros s Hs.
  unfold balanced in *. destruct ok; simpl.
  - destruct (new_record _ _); simpl; lia.
  - lia.
Qed.

Lemma gui_record_best key ok e r :
  best_of (Gui.record_session key ok e r) key
  = if ok && new_record e (best_of r key) then Some e else best_of r key.
Proof.
  unfold best_of. rewrite gui_record_lookup. simpl.
  destruct (r !! key) as [s|]; simpl; destruct ok; simpl; try done;
    by destruct (new_record _ _).
Qed.

Lemma new_record_iff e best :
  new_record e best = true ↔ best = None ∨ ∃ b, best = Some b ∧ (e <? b)%float = true.
Proof.
  destruct best as [b|]; simpl; split; eauto.
  intros [?|(b' & ? & ?)]; congruence.
Qed.

End Merge.

(** ** Running the command-line session *)

Section CliRuns.
Context {L : PyLib}.
Implicit Types (w : World) (p : Problem) (ps : list Problem)
  (answers rest : list string) (c t : Z).

Lemma asked_transcript ps : ∀ answers,
  length answers = length ps → omap asked (transcript ps answers) = ps.
Proof.
  induction ps as [|p ps IH]; intros [|a answers] Hlen; try done.
  cbn [transcript]. rewrite omap_app, IH by (by simplify_eq/=).
  unfold exchange. destruct p as [x y]. simpl.
  destruct (py_int a) as [n|]; [|done]. by destruct (n =? _).
Qed.

Lemma ask_run p a c w rest :
  stdin w = a :: rest →
  Cli.ask p c w
  = (Ok (c + (if right p a then 1 else 0)),
     set_stdin rest (set_shown (shown w ++ exchange p a) w)).
Proof.
  intros Hin. destruct p as [x y], w as [g k i o f]. simpl in Hin. subst i.
  unfold Cli.ask, right, exchange, input, show, bind, modify, get, ret,
    set_stdin, set_shown. simpl.
  destruct (py_int a) as [n|]; simpl.
  - destruct (n =? x * y); simpl.
    + by rewrite Z.add_comm.
    + by rewrite Z.add_0_r, <- app_assoc.
  - by rewrite Z.add_0_r, <- app_assoc.
Qed.

(** The loop asks every problem, reads one line for each, and counts the
    right answers; whatever the lines are, it ends normally. *)
Lemma ask_all_run ps : ∀ answers c w rest,
  stdin w = answers ++ rest → length answers = length ps →
  Cli.ask_all ps c w
  = (Ok (c + score ps answers),
     set_stdin rest (set_shown (shown w ++ transcript ps answers) w)).
Proof.
  induction ps as [|p ps IH]; intros answers c w rest Hin Hlen.
  - destruct answers; [|done]. destruct w. simpl in *. subst.
    unfold ret, set_stdin, set_shown. simpl. by rewrite Z.add_0_r, app_nil_r.
  - destruct answers as [|a answers]; [done|].
    cbn [Cli.ask_all]. unfold bind at 1.
    rewrite (ask_run p a c w (answers ++ rest)) by done.
    rewrite (IH answers _ _ rest); [|done|by simplify_eq/=].
    destruct w. unfold set_stdin, set_shown. simpl.
    by rewrite Z.add_assoc, <- app_assoc.
Qed.

Lemma load_results_run w :
  Cli.load_results w
  = (match found (results_file w) with
     | Some r => Ok r
     | None => Raise JSONDecodeError
     end, w).
Proof.
  unfold Cli.load_results, bind, get, found.
  destruct (results_file w) as [f|]; [|done]. by destruct (json_load f).
Qed.

Lemma practice_session_run t ps answers rest w :
  stdin w = answers ++ rest → length answers = length ps →
  Cli.practice_session t ps w
  = let e := round2 (now (tick (clock w)) - now (clock w))%float in
    let seen := shown w ++ transcript ps answers in
    match found (results_file w) with
    | Some r =>
        let out := Cli.record_session (str t) (score ps answers) e r in
        (Ok tt, mkWorld (gen w) (tick (tick (clock w))) rest (seen ++ out.1)
                  (Some (json_dump out.2)))
    | None =>
        (Raise JSONDecodeError,
         mkWorld (gen w) (tick (tick (clock w))) rest seen (results_file w))
    end.
Proof.
  intros Hin Hlen. unfold Cli.practice_session.
  unfold bind at 1. unfold time_time at 1.
  unfold bind at 1.
  rewrite (ask_all_run ps answers 0 _ rest) by (by destruct w).
  unfold bind at 1. unfold time_time at 1.
  unfold bind at 1. rewrite load_results_run.
  destruct w as [g k i o f]. simpl.
  destruct (found f) as [r|]; [|done].
  unfold now, tick. simpl.
  destruct (Cli.record_session _ _ _ r) as [lines r'].
  reflexivity.
Qed.

(** The whole of [practice_table]: twenty problems, a line read for each,
    and the outcome saved, whenever the results file is absent or decodes. *)
Lemma practice_table_run t w r :
  (20 ≤ length (stdin w))%nat → found (results_file w) = Some r →
  ∃ ps w', length ps = 20%nat ∧
           Cli.practice_table t w = (Ok tt, w') ∧
           omap asked (shown w') = omap asked (shown w) ++ ps ∧
           stdin w' = drop 20 (stdin w) ∧
           is_Some (results_file w').
Proof.
  intros Hin Hr. unfold Cli.practice_table, bind at 1 2, show, modify, random.
  cbn [gen set_shown shown].
  pose proof (proj1 (twenty_problems t _ _ (cli_generate_Permutation t (gen w))
                       (cli_extra_length _ _) (cli_extra_Forall _ _))) as Hlen.
  destruct (Cli.generate_problems t (gen w)) as [ps g1] eqn:Hgen.
  simpl in Hlen. exists ps.
  rewrite (practice_session_run t ps (take 20 (stdin w)) (drop 20 (stdin w)));
    [|destruct w; simpl; by rewrite take_drop
     |rewrite length_take_le by done; by rewrite Hlen].
  destruct w as [g k i o f]. simpl in *. rewrite Hr. simpl.
  eexists. split; [done|]. split; [done|]. simpl. split; [|by split].
  rewrite <- !app_assoc, !omap_app.
  rewrite asked_transcript by (rewrite length_take_le by done; by rewrite Hlen).
  replace (omap asked (Cli.record_session _ _ _ r).1) with (@nil Problem).
  - by rewrite app_nil_r.
  - unfold Cli.record_session. destruct (success _ _); [|done].
    by destruct (new_record _ _).
Qed.

End CliRuns.

(** ** Running the graphical session *)

Section GuiRuns.
Context {L : PyLib}.
Implicit Types (s : Gui.Tk) (p : Problem) (ps : list Problem)
  (answers : list string) (c t : Z).

Lemma check_answer_unparsed a s :
  py_int a = None → Gui.check_answer a s = (Ok tt, saw [BoxInvalidAnswer] s).
Proof. intros Ha. unfold Gui.check_answer. by rewrite Ha. Qed.

Lemma show_question_more s p :
  Gui.problems (Gui.self s) !! Gui.current_index (Gui.self s) = Some p →
  Gui.show_question s = (Ok tt, saw [QuestionLabel p.1 p.2] s).
Proof.
  intros Hp. unfold Gui.show_question, bind, get. rewrite Hp. by destruct p.
Qed.

Lemma show_question_done s :
  Gui.problems (Gui.self s) !! Gui.current_index (Gui.self s) = None →
  Gui.show_question s = Gui.finish_practice s.
Proof. intros Hp. unfold Gui.show_question, bind, get. by rewrite Hp. Qed.

(** A parsed answer is marked and the next question comes up. *)
Lemma check_answer_parsed a s p :
  is_Some (py_int a) →
  Gui.problems (Gui.self s) !! Gui.current_index (Gui.self s) = Some p →
  Gui.check_answer a s
  = Gui.show_question
      (Gui.mkTk
         (Gui.set_current_index (S (Gui.current_index (Gui.self s)))
            (Gui.set_correct_answers
               (Gui.correct_answers (Gui.self s) + (if right p a then 1 else 0))
               (Gui.self s)))
         (Gui.world s)).
Proof.
  intros [n Hn] Hp. destruct p as [x y], s as [[tb pr i st c] w].
  simpl in Hp. unfold Gui.check_answer, right. rewrite Hn.
  unfold bind, get. simpl. rewrite Hp. simpl.
  destruct (n =? x * y); unfold Gui.on_self, modify, ret; simpl.
  - done.
  - by rewrite Z.add_0_r.
Qed.

Lemma finish_practice_run s (t0 : float) :
  Gui.start_time (Gui.self s) = Some t0 →
  Gui.finish_practice s
  = let w := Gui.world s in
    let e := (now (clock w) - t0)%float in
    let c := Gui.correct_answers (Gui.self s) in
    let ok := success c e in
    match found (results_file w) with
    | Some r =>
        (Ok tt,
         Gui.mkTk (Gui.self s)
           (mkWorld (gen w) (tick (clock w)) (stdin w)
              (shown w ++ [if ok then BoxSuccess e else BoxTryAgain c e])
              (Some (json_dump
                 (Gui.record_session (Gui.table_key (Gui.table (Gui.self s))) ok e r)))))
    | None =>
        (Raise JSONDecodeError,
         Gui.mkTk (Gui.self s)
           (mkWorld (gen w) (tick (clock w)) (stdin w) (shown w) (results_file w)))
    end.
Proof.
  intros Ht0. destruct s as [a [g k i o f]]. simpl in *.
  unfold Gui.finish_practice, bind, Gui.io, time_time, get. simpl. rewrite Ht0.
  unfold Gui.save_results, bind, Gui.io, get, found, Gui.read_results. simpl.
  destruct f as [txt|]; simpl.
  - destruct (json_load txt) as [r|]; simpl; [|done].
    by destruct (success _ _).
  - by destruct (success _ _).
Qed.

Lemma run_then_stop {S} (r : Res unit * S) :
  match r with
  | (Ok _, s') => ret tt s'
  | (Raise e, s') => (Raise e, s')
  end = r.
Proof. by destruct r as [[[]|e] s']. Qed.

(** With an integer submitted for each problem left, the run reaches
    [finish_practice] with every problem marked. *)
Lemma submit_all_run answers : ∀ s,
  answers ≠ [] →
  Forall (λ a, is_Some (py_int a)) answers →
  (Gui.current_index (Gui.self s) + length answers)%nat
    = length (Gui.problems (Gui.self s)) →
  Gui.submit_all answers s
  = Gui.finish_practice
      (saw (labels (drop (S (Gui.current_index (Gui.self s)))
                      (Gui.problems (Gui.self s))))
         (Gui.mkTk
            (Gui.set_current_index (length (Gui.problems (Gui.self s)))
               (Gui.set_correct_answers
                  (Gui.correct_answers (Gui.self s)
                   + score (drop (Gui.current_index (Gui.self s))
                              (Gui.problems (Gui.self s))) answers)
                  (Gui.self s)))
            (Gui.world s))).
Proof.
  induction answers as [|a answers IH]; intros s Hne Hall Hlen; [done|].
  apply Forall_cons in Hall as [Ha Hall].
  destruct s as [[tb pr i st c] w]. simpl in *.
  destruct (lookup_lt_is_Some_2 pr i ltac:(lia)) as [p Hp].
  cbn [Gui.submit_all]. unfold bind at 1. unfold get at 1. simpl.
  rewrite bool_decide_eq_true_2 by lia.
  unfold bind at 1.
  rewrite (check_answer_parsed a _ p Ha) by done. simpl.
  rewrite (drop_S pr p i Hp). cbn [score].
  destruct answers as [|a' answers].
  - simpl in Hlen.
    rewrite show_question_done by (simpl; apply lookup_ge_None_2; lia).
    rewrite (drop_ge pr (S i)) by lia.
    etrans; [apply (run_then_stop (Gui.finish_practice _))|].
    unfold saw, labels, Gui.set_current_index, Gui.set_correct_answers, set_shown.
    destruct w. simpl. rewrite app_nil_r, Z.add_0_r.
    replace (length pr) with (S i) by lia. done.
  - simpl in Hlen.
    destruct (lookup_lt_is_Some_2 pr (S i) ltac:(lia)) as [p' Hp'].
    rewrite (show_question_more _ p') by done.
    rewrite IH; [|done|done|simpl; lia]. simpl.
    rewrite (drop_S pr p' (S i) Hp').
    unfold saw, labels, Gui.set_current_index, Gui.set_correct_answers, set_shown.
    destruct w. simpl. rewrite <- app_assoc. simpl.
    by rewrite <- !Z.add_assoc.
Qed.

End GuiRuns.

(** ** What the user is told *)

Section Verdicts.
Context {L : PyLib}.
Implicit Types (seen evs : list Event) (ps : list Problem) (answers : list string).

Lemma verdict_app seen evs :
  verdict (seen ++ evs)
  = match verdict evs with Some b => Some b | None => verdict seen end.
Proof. unfold verdict. by rewrite omap_app, last_app. Qed.

Lemma verdict_silent evs : omap judged evs = [] → verdict evs = None.
Proof. unfold verdict. by intros ->. Qed.

Lemma transcript_silent ps : ∀ answers, omap judged (transcript ps answers) = [].
Proof.
  induction ps as [|p ps IH]; intros [|a answers]; try done.
  cbn [transcript]. rewrite omap_app, IH, app_nil_r. unfold exchange.
  destruct (py_int a) as [n|]; [|done]. by destruct (n =? _).
Qed.

Lemma labels_silent ps : omap judged (labels ps) = [].
Proof.
  unfold labels. induction ps as [|p ps IH]; [done|].
  rewrite fmap_cons. exact IH.
Qed.

End Verdicts.

(** ** A whole graphical session *)

Section GuiSession.
Context {L : PyLib}.
Implicit Types (s : Gui.Tk) (ps : list Problem) (answers : list string).

Lemma gui_session_run s ps answers :
  Gui.problems (Gui.self s) = ps → length answers = length ps →
  Forall (λ a, is_Some (py_int a)) answers →
  (Gui.begin_session ;;; Gui.submit_all answers) s
  = let w := Gui.world s in
    Gui.finish_practice
      (Gui.mkTk
         (Gui.mkApp (Gui.table (Gui.self s)) ps (length ps)
            (Some (now (clock w))) (score ps answers))
         (mkWorld (gen w) (tick (clock w)) (stdin w) (shown w ++ labels ps)
            (results_file w))).
Proof.
  intros Hps Hlen Hall. destruct s as [[tb pr i st c] [g k inp o f]].
  simpl in Hps. subst pr.
  unfold Gui.begin_session, bind at 1 2 3 4 5, Gui.on_self, modify, Gui.io,
    time_time. simpl.
  destruct ps as [|p ps]; destruct answers as [|a answers]; try done.
  - rewrite show_question_done by done.
    etrans; [apply (run_then_stop (Gui.finish_practice _))|].
    by rewrite app_nil_r.
  - rewrite (show_question_more _ p) by done.
    rewrite submit_all_run; [|done|done|simpl in *; lia]. simpl.
    unfold saw. simpl. rewrite drop_0, <- app_assoc. simpl.
    by rewrite Z.add_0_l.
Qed.

End GuiSession.

(** ** What a whole session announces and records *)

Section SessionOutcomes.
Context {L : PyLib}.
Implicit Types (w : World) (s : Gui.Tk) (ps : list Problem)
  (answers rest : list string) (t : Z) (r : Store).

(** The command-line session judges the count of right answers and the
    clock difference rounded to two decimals, and records what it judged. *)
Lemma cli_session_judged t ps answers rest w r :
  stdin w = answers ++ rest → length answers = length ps →
  found (results_file w) = Some r →
  let e := round2 (now (tick (clock w)) - now (clock w))%float in
  let ok := success (score ps answers) e in
  (Cli.practice_session t ps w).1 = Ok tt ∧
  verdict (shown (Cli.practice_session t ps w).2) = Some ok ∧
  results_file (Cli.practice_session t ps w).2
  = Some (json_dump (Gui.record_session (str t) ok e r)).
Proof.
  intros Hin Hlen Hr.
  rewrite (practice_session_run t ps answers rest w Hin Hlen).
  cbv zeta. rewrite Hr. cbn [fst snd shown results_file].
  split; [done|]. split.
  - by rewrite verdict_app, cli_record_lines.
  - by rewrite record_session_agree.
Qed.


(** [practice_table] is the session over the problems it generates. *)
Lemma practice_table_session t w :
  Cli.practice_table t w
  = Cli.practice_session t (Cli.generate_problems t (gen w)).1
      (set_gen (Cli.generate_problems t (gen w)).2
         (set_shown (shown w ++ [SayPracticing t]) w)).
Proof.
  unfold Cli.practice_table, bind at 1 2, show, modify, random.
  cbn [gen set_shown shown].
  by destruct (Cli.generate_problems t (gen w)) as [ps g1].
Qed.

(** The same for [practice_table], on the problems it generates. *)
Lemma cli_table_judged t answers rest w r :
  stdin w = answers ++ rest → length answers = 20%nat →
  found (results_file w) = Some r →
  let e := round2 (now (tick (clock w)) - now (clock w))%float in
  let ok := success (score (Cli.generate_problems t (gen w)).1 answers) e in
  (Cli.practice_table t w).1 = Ok tt ∧
  verdict (shown (Cli.practice_table t w).2) = Some ok ∧
  results_file (Cli.practice_table t w).2
  = Some (json_dump (Gui.record_session (str t) ok e r)).
Proof.
  intros Hin Hlen Hr. rewrite practice_table_session.
  pose proof (proj1 (twenty_problems t _ _ (cli_generate_Permutation t (gen w))
                       (cli_extra_length _ _) (cli_extra_Forall _ _))) as Hps.
  destruct w as [g k i o f].
  exact (cli_session_judged t _ answers rest
           (mkWorld (Cli.generate_problems t g).2 k i (o ++ [SayPracticing t]) f)
           r Hin (eq_trans Hlen (eq_sym Hps)) Hr).
Qed.

(** The graphical session judges the count of right answers and the clock
    difference as it is, and records what it judged. *)
Lemma gui_session_judged s ps answers r :
  Gui.problems (Gui.self s) = ps → length answers = length ps →
  Forall (λ a, is_Some (py_int a)) answers →
  found (results_file (Gui.world s)) = Some r →
  let w := Gui.world s in
  let e := (now (tick (clock w)) - now (clock w))%float in
  let ok := success (score ps answers) e in
  let run := (Gui.begin_session ;;; Gui.submit_all answers) s in
  run.1 = Ok tt ∧
  verdict (shown (Gui.world run.2)) = Some ok ∧
  results_file (Gui.world run.2)
  = Some (json_dump
      (Gui.record_session (Gui.table_key (Gui.table (Gui.self s))) ok e r)).
Proof.
  intros Hps Hlen Hall Hr. cbv zeta.
  rewrite (gui_session_run s ps answers Hps Hlen Hall). cbv zeta.
  match goal with |- context [Gui.finish_practice ?x] =>
    rewrite (finish_practice_run x (now (clock (Gui.world s)))) by reflexivity
  end.
  cbv zeta. cbn [Gui.world Gui.self Gui.correct_answers Gui.table
                 results_file clock shown gen stdin].
  rewrite Hr. cbn [fst snd Gui.world shown results_file].
  split; [done|]. split; [|done].
  rewrite verdict_app. by destruct (success _ _).
Qed.



Lemma merge_failure key (e e' : float) r :
  Gui.record_session key false e r = Gui.record_session key false e' r.
Proof. reflexivity. Qed.


End SessionOutcomes.

(** * The claims *)

Section Claims.
Context {L : PyLib}.

(** C1. A completed session is judged a success exactly when the count of
    right answers is 20 and the elapsed seconds are at most 60: with 20
    right, 60.00 seconds is a success and 60.01 a failure, and with any
    other count the session fails whatever the time.  Both front ends
    announce their verdict by this rule: the command-line one in the lines
    it prints, the graphical one in the box [finish_practice] shows.  So
    does every completed session: a command-line session that reads an
    answer for each problem, over given problems or over those
    [practice_table] generates, announces and records the rule's verdict
    on its count of right answers and the difference of its two clock
    readings rounded to two decimals; a graphical session in which every
    problem is answered announces and records the rule's verdict on its
    count and the difference of its clock readings as it is. *)
Theorem success_rule :
  (∀ c e, success c e = true ↔ c = 20 ∧ (e <=? 60)%float = true) ∧
  success 20 60.00 = true ∧
  success 20 60.01 = false ∧
  (∀ c e, c ≠ 20 → success c e = false) ∧
  (∀ key c e r, verdict (Cli.record_session key c e r).1 = Some (success c e)) ∧
  (∀ (s : Gui.Tk) t0 r,
     Gui.start_time (Gui.self s) = Some t0 →
     found (results_file (Gui.world s)) = Some r →
     verdict (shown (Gui.world (Gui.finish_practice s).2))
     = Some (success (Gui.correct_answers (Gui.self s))
               (now (clock (Gui.world s)) - t0)%float)) ∧
  (∀ t ps answers rest (w : World) r,
     stdin w = answers ++ rest → length answers = length ps →
     found (results_file w) = Some r →
     let e := round2 (now (tick (clock w)) - now (clock w))%float in
     let ok := success (score ps answers) e in
     (Cli.practice_session t ps w).1 = Ok tt ∧
     verdict (shown (Cli.practice_session t ps w).2) = Some ok ∧
     results_file (Cli.practice_session t ps w).2
     = Some (json_dump (Gui.record_session (str t) ok e r))) ∧
  (∀ t answers rest (w : World) r,
     stdin w = answers ++ rest → length answers = 20%nat →
     found (results_file w) = Some r →
     let e := round2 (now (tick (clock w)) - now (clock w))%float in
     let ok := success (score (Cli.generate_problems t (gen w)).1 answers) e in
     (Cli.practice_table t w).1 = Ok tt ∧
     verdict (shown (Cli.practice_table t w).2) = Some ok ∧
     results_file (Cli.practice_table t w).2
     = Some (json_dump (Gui.record_session (str t) ok e r))) ∧
  (∀ (s : Gui.Tk) ps answers r,
     Gui.problems (Gui.self s) = ps → length answers = length ps →
     Forall (λ a, is_Some (py_int a)) answers →
     found (results_file (Gui.world s)) = Some r →
     let w := Gui.world s in
     let e := (now (tick (clock w)) - now (clock w))%float in
     let ok := success (score ps answers) e in
     let run := (Gui.begin_session ;;; Gui.submit_all answers) s in
     run.1 = Ok tt ∧
     verdict (shown (Gui.world run.2)) = Some ok ∧
     results_file (Gui.world run.2)
     = Some (json_dump
         (Gui.record_session (Gui.table_key (Gui.table (Gui.self s))) ok e r))).
Proof.
  split; [|split; [|split; [|split; [|split; [|split; [|split; [|split]]]]]]].
  - intros c e. unfold success. rewrite andb_true_iff, Z.eqb_eq. done.
  - reflexivity.
  - reflexivity.
  - intros c e Hc. unfold success. by apply Z.eqb_neq in Hc as ->.
  - intros. apply cli_record_lines.
  - intros s t0 r Ht0 Hr. rewrite (finish_practice_run s t0 Ht0). simpl.
    rewrite Hr. simpl. rewrite verdict_app. by destruct (success _ _).
  - intros t ps answers rest w r. apply cli_session_judged.
  - intros t answers rest w r. apply cli_table_judged.
  - intros s ps answers r. apply gui_session_judged.
Qed.

(** C2. For every table [t] and every outcome of the random source,
    [generate_problems(t)] is a list of exactly 20 pairs, each with first
    component [t] and second component in 0..12, and every multiplier 0..12
    occurs among the second components.  The problems built by
    [start_practice] satisfy the same. *)
Theorem generate_problems_post (t : Z) (g : Gen) :
  (length (Cli.generate_problems t g).1 = 20%nat ∧
   (∀ p, p ∈ (Cli.generate_problems t g).1 → p.1 = t ∧ 0 ≤ p.2 ≤ 12) ∧
   (∀ m, 0 ≤ m ≤ 12 → m ∈ (Cli.generate_problems t g).1.*2)) ∧
  (length (Gui.prepare_problems t g).1 = 20%nat ∧
   (∀ p, p ∈ (Gui.prepare_problems t g).1 → p.1 = t ∧ 0 ≤ p.2 ≤ 12) ∧
   (∀ m, 0 ≤ m ≤ 12 → m ∈ (Gui.prepare_problems t g).1.*2)).
Proof.
  split.
  - eapply twenty_problems;
      [apply cli_generate_Permutation|apply cli_extra_length|apply cli_extra_Forall].
  - eapply twenty_problems;
      [apply gui_prepare_Permutation|apply gui_extra_length|apply gui_extra_Forall].
Qed.

(** C3. If every entry of the store satisfies
    [attempts == successes + failures], then so does every entry of the
    store after the merge of a session, in either front end; the merged
    entry has one attempt more and one more of exactly one of successes
    and failures, as the success flag says. *)
Theorem merge_keeps_balance (r : Store) (key : string) (c : Z) (ok : bool) (e : float) :
  map_Forall (λ _, balanced) r →
  map_Forall (λ _, balanced) (Cli.record_session key c e r).2 ∧
  map_Forall (λ _, balanced) (Gui.record_session key ok e r) ∧
  (Cli.record_session key c e r).2 = Gui.record_session key (success c e) e r ∧
  ∃ s1, Gui.record_session key ok e r !! key = Some s1 ∧
        let s0 := default fresh_stats (r !! key) in
        attempts s1 = attempts s0 + 1 ∧
        successes s1 = successes s0 + (if ok then 1 else 0) ∧
        failures s1 = failures s0 + (if ok then 0 else 1).
Proof.
  intros Hr. split; [|split; [|split]].
  - rewrite record_session_agree. by apply gui_record_balanced.
  - by apply gui_record_balanced.
  - apply record_session_agree.
  - eexists. split; [apply gui_record_lookup|].
    destruct ok; simpl; [destruct (new_record _ _)|]; simpl; lia.
Qed.

(** C4. In either front end the merge moves [best_time] by
    [best_time_law]: a session that is not a success leaves it as it was
    (absent stays absent); a success sets it to the elapsed seconds exactly
    when it was absent or the elapsed seconds are strictly less, and leaves
    it otherwise; so it is set only on a success and never increases. *)
Theorem best_time_rule (r : Store) (key : string) (c : Z) (ok : bool) (e : float) :
  best_time_law (success c e) e (best_of r key)
    (best_of (Cli.record_session key c e r).2 key) ∧
  best_time_law ok e (best_of r key)
    (best_of (Gui.record_session key ok e r) key).
Proof.
  assert (H : ∀ ok', best_time_law ok' e (best_of r key)
                       (best_of (Gui.record_session key ok' e r) key)).
  { intros ok'. rewrite gui_record_best. unfold best_time_law.
    destruct ok'; simpl.
    - destruct (new_record e (best_of r key)) eqn:Hn.
      + pose proof (proj1 (new_record_iff _ _) Hn) as Hn'.
        split; [discriminate|]. split; [done|]. split; [|by right].
        intros _ (b & Hb & Hlt). rewrite Hb in Hn. simpl in Hn. congruence.
      + split; [discriminate|]. split; [|split; [done|by left]].
        intros _ Hn'. apply new_record_iff in Hn'. congruence.
    - split; [done|]. split; [discriminate|]. split; [discriminate|by left]. }
  split; [|apply H]. rewrite record_session_agree. apply H.
Qed.

End Claims.

Section Claims2.
Context {L : PyLib}.

Lemma saw_saw (evs1 evs2 : list Event) (s : Gui.Tk) :
  saw evs2 (saw evs1 s) = saw (evs1 ++ evs2) s.
Proof.
  destruct s as [a [g k i o f]]. unfold saw, set_shown. simpl.
  by rewrite <- app_assoc.
Qed.

Lemma saw_nil (s : Gui.Tk) : saw [] s = s.
Proof.
  destruct s as [a [g k i o f]]. unfold saw, set_shown. simpl.
  by rewrite app_nil_r.
Qed.

(** Unparsable submissions, however many, only add warning boxes. *)
Lemma submit_all_unparsed (answers : list string) : ∀ s : Gui.Tk,
  Forall (λ a, py_int a = None) answers →
  ∃ n, Gui.submit_all answers s = (Ok tt, saw (replicate n BoxInvalidAnswer) s).
Proof.
  induction answers as [|a answers IH]; intros s Hall.
  { exists 0%nat. by rewrite saw_nil. }
  apply Forall_cons in Hall as [Ha Hall].
  cbn [Gui.submit_all]. unfold bind at 1, get at 1.
  case_bool_decide.
  - unfold bind. rewrite (check_answer_unparsed a s Ha).
    destruct (IH (saw [BoxInvalidAnswer] s) Hall) as [n Hn].
    exists (S n). by rewrite Hn, saw_saw.
  - exists 0%nat. by rewrite saw_nil.
Qed.

Lemma on_screen_boxes (seen : list Event) (n : nat) :
  on_screen (seen ++ replicate n BoxInvalidAnswer) = on_screen seen.
Proof.
  unfold on_screen. rewrite omap_app.
  replace (omap _ (replicate n BoxInvalidAnswer)) with (@nil Problem);
    [by rewrite app_nil_r|].
  induction n as [|n IH]; [done|]. simpl. exact IH.
Qed.

(** C5 (amended).  In the command-line front end an answer that does not
    parse as an integer is counted as incorrect, the loop goes on to the
    next problem and no error propagates: given a line of input per
    problem, the loop ends normally having asked every problem in order
    and counted the right answers, and the session ends normally with its
    outcome saved whenever the results file is absent or decodes.  In the
    graphical front end such an answer is not counted: [check_answer]
    shows a warning and changes nothing else. *)
Theorem unparsable_answers (t : Z) (ps : list Problem)
    (answers rest : list string) (w : World) :
  stdin w = answers ++ rest → length answers = length ps →
  Cli.ask_all ps 0 w
  = (Ok (score ps answers),
     set_stdin rest (set_shown (shown w ++ transcript ps answers) w)) ∧
  omap asked (transcript ps answers) = ps ∧
  (∀ i p a, ps !! i = Some p → answers !! i = Some a → py_int a = None →
     right p a = false ∧ exchange p a = [Prompt p.1 p.2; SayNotANumber]) ∧
  (∀ r, found (results_file w) = Some r →
     ∃ w', Cli.practice_session t ps w = (Ok tt, w') ∧ stdin w' = rest ∧
           results_file w'
           = Some (json_dump
               (Cli.record_session (str t) (score ps answers)
                  (round2 (now (tick (clock w)) - now (clock w))%float) r).2)) ∧
  (∀ w0 r, (20 ≤ length (stdin w0))%nat → found (results_file w0) = Some r →
     ∃ qs w', length qs = 20%nat ∧
              Cli.practice_table t w0 = (Ok tt, w') ∧
              omap asked (shown w') = omap asked (shown w0) ++ qs ∧
              stdin w' = drop 20 (stdin w0) ∧
              is_Some (results_file w')) ∧
  (∀ (s : Gui.Tk) a, py_int a = None →
     Gui.check_answer a s = (Ok tt, saw [BoxInvalidAnswer] s)).
Proof.
  intros Hin Hlen. split; [|split; [|split; [|split; [|split]]]].
  - by rewrite (ask_all_run ps answers 0 w rest).
  - by apply asked_transcript.
  - intros i p a _ _ Ha. unfold right, exchange. by rewrite Ha.
  - intros r Hr. rewrite (practice_session_run t ps answers rest w Hin Hlen).
    simpl. rewrite Hr. eexists. split; [done|]. done.
  - intros w0 r. apply practice_table_run.
  - intros s a Ha. by apply check_answer_unparsed.
Qed.

(** C6 (amended).  For every table the thirteen fixed problems carry the
    multipliers 0..12, each once.  The command-line front end appends
    seven problems whose multipliers are drawn uniformly from 0..12,
    independently and with replacement: they are the results of seven
    draws below 13, and every choice of seven multipliers in range is an
    outcome, so for some outcome two of them coincide.  The graphical
    front end appends seven of the thirteen fixed problems drawn uniformly
    without replacement: its seven multipliers are pairwise distinct for
    every outcome, and every selection of seven different fixed problems,
    in every order, is an outcome, of exactly one sequence of draws.
    Either way the session's problems are a uniformly random permutation,
    by [random.shuffle], of the twenty: every order is an outcome,
    whatever was appended, and every order of the twenty positions the
    outcome of exactly one sequence of draws.  The draws are the results
    of [_randbelow], each below its bound, and every sequence below the
    bounds is drawn by some random source; outcomes and sequences of draws
    correspond one to one, so outcomes are as uniform as the draws. *)
Theorem generation_structure (t : Z) :
  ((λ i, (t, i)) <$> range 13).*2 = [0; 1; 2; 3; 4; 5; 6; 7; 8; 9; 10; 11; 12] ∧
  (∀ g, (Cli.generate_problems t g).1
        ≡ₚ ((λ i, (t, i)) <$> range 13) ++ (Cli.extra_problems t g).1 ∧
        length (Cli.extra_problems t g).1 = 7%nat ∧
        Forall (λ p, p.1 = t ∧ 0 ≤ p.2 ≤ 12) (Cli.extra_problems t g).1) ∧
  (∀ ms : list Z, length ms = 7%nat → Forall (λ m, 0 ≤ m ≤ 12) ms →
        ∃ g, (Cli.extra_problems t g).1 = (λ m, (t, m)) <$> ms) ∧
  (∃ g, ¬ NoDup (Cli.extra_problems t g).1.*2) ∧
  (∀ g, (Gui.prepare_problems t g).1
        ≡ₚ ((λ i, (t, i)) <$> range 13) ++ (Gui.extra_problems t g).1 ∧
        length (Gui.extra_problems t g).1 = 7%nat ∧
        Forall (λ p, p.1 = t ∧ 0 ≤ p.2 ≤ 12) (Gui.extra_problems t g).1 ∧
        NoDup (Gui.extra_problems t g).1.*2) ∧
  (∀ g, (Cli.extra_problems t g).1
        = (λ j, (t, Z.of_nat j)) <$> draws (replicate 7 13%nat) g) ∧
  (∀ (ms : list Z) (y : list Problem),
        length ms = 7%nat → Forall (λ m, 0 ≤ m ≤ 12) ms →
        y ≡ₚ ((λ i, (t, i)) <$> range 13) ++ ((λ m, (t, m)) <$> ms) →
        ∃ g, (Cli.extra_problems t g).1 = (λ m, (t, m)) <$> ms ∧
             (Cli.generate_problems t g).1 = y) ∧
  (∀ ys y : list Problem,
        NoDup ys → length ys = 7%nat → ys ⊆ (λ i, (t, i)) <$> range 13 →
        y ≡ₚ ((λ i, (t, i)) <$> range 13) ++ ys →
        ∃ g, (Gui.extra_problems t g).1 = ys ∧ (Gui.prepare_problems t g).1 = y) ∧
  (∀ g g', (Gui.extra_problems t g).1 = (Gui.extra_problems t g').1 →
        draws (sample_bounds 13 7) g = draws (sample_bounds 13 7) g') ∧
  (∀ g, Some <$> (Cli.generate_problems t g).1
        = (λ i, (((λ i, (t, i)) <$> range 13) ++ (Cli.extra_problems t g).1) !! i)
          <$> (shuffle (seq 0 20) (Cli.extra_problems t g).2).1) ∧
  (∀ g, Some <$> (Gui.prepare_problems t g).1
        = (λ i, (((λ i, (t, i)) <$> range 13) ++ (Gui.extra_problems t g).1) !! i)
          <$> (shuffle (seq 0 20) (Gui.extra_problems t g).2).1) ∧
  (∀ σ : list nat, σ ≡ₚ seq 0 20 → ∃ g, (shuffle (seq 0 20) g).1 = σ) ∧
  (∀ g g', (shuffle (seq 0 20) g).1 = (shuffle (seq 0 20) g').1 →
        draws (shuffle_bounds 19) g = draws (shuffle_bounds 19) g') ∧
  (∀ ns : list nat, Forall (lt 0) ns →
        (∀ g, Forall2 lt (draws ns g) ns) ∧
        (∀ js, Forall2 lt js ns → ∃ g, draws ns g = js)).
Proof.
  split; [reflexivity|].
  split; [|split; [|split; [|split; [|split; [|split; [|split; [|split;
    [|split; [|split; [|split; [|split]]]]]]]]]]].
  - intros g. split; [apply cli_generate_Permutation|].
    split; [apply cli_extra_length|apply cli_extra_Forall].
  - apply cli_extra_any.
  - destruct (cli_extra_any t [5; 5; 0; 1; 2; 3; 4] eq_refl) as [g Hg].
    { repeat constructor; lia. }
    exists g. rewrite Hg. simpl. intros Hnd.
    apply NoDup_cons in Hnd as [Hnd _]. apply Hnd. by left.
  - intros g. split; [apply gui_prepare_Permutation|].
    split; [apply gui_extra_length|]. split; [apply gui_extra_Forall|].
    apply gui_extra_NoDup.
  - apply cli_extra_draws.
  - apply cli_generate_reach.
  - apply gui_prepare_reach.
  - apply gui_extra_inj.
  - apply cli_generate_positions.
  - apply gui_prepare_positions.
  - apply shuffle_twenty_reach.
  - apply shuffle_twenty_inj.
  - intros ns Hns. split; [intros g; by apply draws_lt|apply draws_any].
Qed.


(** C8. [load_results] returns the empty mapping when there is no results
    file, the decoded mapping when the file decodes, and raises the
    decoding error, returning no mapping, when the file does not decode;
    it leaves the file as it is. *)
Theorem load_results_cases (w : World) :
  (results_file w = None → Cli.load_results w = (Ok ∅, w)) ∧
  (∀ f r, results_file w = Some f → json_load f = Some r →
          Cli.load_results w = (Ok r, w)) ∧
  (∀ f, results_file w = Some f → json_load f = None →
        Cli.load_results w = (Raise JSONDecodeError, w)).
Proof.
  rewrite load_results_run. split; [|split].
  - by intros ->.
  - intros f r -> Hr. simpl. by rewrite Hr.
  - intros f -> Hf. simpl. by rewrite Hf.
Qed.

(** X17. [save_results] overwrites the results file, whatever it held,
    with the text [json.dump] writes of the store, and a load after it,
    [load_results] or the graphical [load_stats_for_table], returns what
    [json.load] reads from that text, and raises its decoding error if it
    reads nothing: the repository's code puts no rounding, truncation or
    merging of its own between the store and the codec. *)
Theorem load_reads_what_save_wrote (results : Store) (t : Z) (w : World) :
  (Cli.save_results results ;;; Cli.load_results) w
  = (match json_load (json_dump results) with
     | Some r => Ok r
     | None => Raise JSONDecodeError
     end, set_results_file (Some (json_dump results)) w) ∧
  (Cli.save_results results ;;; Gui.load_stats_for_table t) w
  = (match json_load (json_dump results) with
     | Some r => Ok (r !! str t)
     | None => Raise JSONDecodeError
     end, set_results_file (Some (json_dump results)) w).
Proof.
  split.
  - unfold bind, Cli.save_results, modify. rewrite load_results_run.
    destruct w. unfold found. simpl. by destruct (json_load _).
  - unfold Cli.save_results, Gui.load_stats_for_table, Gui.read_results,
      modify, get. unfold bind, ret, raise. destruct w. simpl.
    by destruct (json_load _).
Qed.

(** C10. In the graphical front end, submitting an answer that does not
    parse as an integer leaves the application's state as it was: the
    current index, the count of right answers and the problems are
    unchanged, the same question stays on screen, and nothing is recorded;
    a warning box is all that happens, however often it is tried. *)
Theorem unparsable_submission_ignored (answers : list string) (s : Gui.Tk) :
  Forall (λ a, py_int a = None) answers →
  (∀ a, a ∈ answers → Gui.check_answer a s = (Ok tt, saw [BoxInvalidAnswer] s)) ∧
  (Gui.submit_all answers s).1 = Ok tt ∧
  Gui.self (Gui.submit_all answers s).2 = Gui.self s ∧
  on_screen (shown (Gui.world (Gui.submit_all answers s).2))
  = on_screen (shown (Gui.world s)) ∧
  results_file (Gui.world (Gui.submit_all answers s).2)
  = results_file (Gui.world s).
Proof.
  intros Hall. split.
  - intros a Ha. apply check_answer_unparsed.
    by apply (proj1 (Forall_forall _ _) Hall).
  - destruct (submit_all_unparsed answers s Hall) as [n ->]. simpl.
    split; [done|]. split; [done|]. split; [|done].
    apply on_screen_boxes.
Qed.

End Claims2.

(** * The claims at concrete inputs *)

(** C1 at 20 and 19 right answers in 45.6 seconds, and on a command-line
    session of twenty right answers between clock readings 1000 and
    1030. *)
Lemma success_rule_witness :
  success 20 45.6 = true ∧ success 19 45.6 = false ∧
  verdict (shown (Cli.practice_session 2 (twenty 2)
                    (world_of 1000 1030 (right_answers (twenty 2)) None)).2)
  = Some true.
Proof.
  destruct (success_rule (L := ref_lib))
    as (Hiff & _ & _ & Hne & _ & _ & Hcli & _).
  split; [apply Hiff; split; reflexivity|]. split; [apply Hne; lia|].
  destruct (Hcli 2 (twenty 2) (right_answers (twenty 2)) []
              (world_of 1000 1030 (right_answers (twenty 2)) None) ∅
              eq_refl eq_refl eq_refl) as (_ & Hv & _).
  exact Hv.
Defined.

(** C2 at table 3 and the sample random source. *)
Lemma generate_problems_post_witness :
  length (Cli.generate_problems 3 gen0).1 = 20%nat ∧
  7 ∈ (Cli.generate_problems 3 gen0).1.*2 ∧
  7 ∈ (Gui.prepare_problems 3 gen0).1.*2.
Proof.
  destruct (generate_problems_post 3 gen0) as [(Hlen & _ & Hc) (_ & _ & Hg)].
  split; [exact Hlen|]. split; [apply Hc; lia|apply Hg; lia].
Defined.

(** C3 at the store of the repository's test, table 3, a success in 30 s. *)
Lemma merge_keeps_balance_witness :
  map_Forall (λ _, balanced) demo_store ∧
  map_Forall (λ _, balanced) (Cli.record_session "3" 20 30 demo_store).2 ∧
  map_Forall (λ _, balanced) (Gui.record_session "3" true 30 demo_store).
Proof.
  assert (H : map_Forall (λ _, balanced) demo_store).
  { apply map_Forall_singleton. reflexivity. }
  split; [exact H|].
  destruct (merge_keeps_balance demo_store "3" 20 true 30 H) as (Hc & Hg & _).
  split; [exact Hc|exact Hg].
Defined.

(** C4 at the same store: a success in 30 s beats 45.6 s, a failure and a
    slower success leave 45.6 s. *)
Lemma best_time_rule_witness :
  best_of (Gui.record_session "3" true 30 demo_store) "3" = Some 30%float ∧
  best_of (Cli.record_session "3" 0 30 demo_store).2 "3" = Some 45.6%float ∧
  best_of (Gui.record_session "3" true 50 demo_store) "3" = Some 45.6%float.
Proof.
  split; [|split].
  - destruct (best_time_rule demo_store "3" 20 true 30) as [_ (_ & H & _)].
    apply H; [reflexivity|]. right. exists 45.6%float. split; reflexivity.
  - destruct (best_time_rule demo_store "3" 0 true 30) as [(H & _) _].
    apply H. reflexivity.
  - destruct (best_time_rule demo_store "3" 20 true 50) as [_ (_ & _ & H & _)].
    apply H; [reflexivity|]. exists 45.6%float. split; reflexivity.
Defined.

(** C5, the claim as stated, fails in the graphical front end: after the
    first question is up, submitting ["six"] leaves the index at 0, and the
    twenty right answers submitted after it still make a session of 20 out
    of 20, announced as a success: the unparsable answer was not counted
    as an incorrect one, and the session did not move on from it. *)
Lemma gui_does_not_count_unparsable :
  let ps := twenty 2 in
  let s0 := (Gui.begin_session (tk_of 2 ps (world_of 0 30 [] None))).2 in
  let s1 := (Gui.submit_all ("six" :: right_answers ps) s0).2 in
  py_int (PyLib := ref_lib) "six" = None ∧
  Gui.current_index (Gui.self (Gui.check_answer "six" s0).2) = 0%nat ∧
  Gui.correct_answers (Gui.self s1) = 20 ∧
  verdict (shown (Gui.world s1)) = Some true.
Proof. vm_compute. repeat split; reflexivity. Qed.

(** C5 (amended) on two problems, the second answered ["six"]. *)
Lemma unparsable_answers_witness :
  Cli.ask_all [(2, 3); (2, 4)] 0 (world_of 0 30 ["6"; "six"; "left"] None)
  = (Ok 1,
     set_stdin ["left"]
       (set_shown [Prompt 2 3; Prompt 2 4; SayNotANumber]
          (world_of 0 30 ["6"; "six"; "left"] None))).
Proof.
  destruct (unparsable_answers (L := ref_lib) 2 [(2, 3); (2, 4)] ["6"; "six"]
              ["left"] (world_of 0 30 ["6"; "six"; "left"] None)
              eq_refl eq_refl) as (H & _).
  exact H.
Defined.

(** C6, the claim as stated, fails in the graphical front end: for no
    outcome of the random source do two of its seven supplemental
    multipliers coincide. *)
Lemma gui_extras_never_coincide :
  ¬ ∃ g, ¬ NoDup (Gui.extra_problems 2 g).1.*2.
Proof. intros [g Hg]. apply Hg. apply gui_extra_NoDup. Qed.

(** C6 (amended) at table 2: seven equal multipliers are an outcome of the
    command-line front end, and so is the order that asks the thirteen
    fixed problems first and in order. *)
Lemma generation_structure_witness :
  ∃ g, (Cli.extra_problems 2 g).1 = (λ m, (2, m)) <$> [4; 4; 4; 4; 4; 4; 4] ∧
       (Cli.generate_problems 2 g).1
       = ((λ i, (2, i)) <$> range 13) ++ ((λ m, (2, m)) <$> [4; 4; 4; 4; 4; 4; 4]).
Proof.
  destruct (generation_structure 2) as (_ & _ & _ & _ & _ & _ & H & _).
  apply H; [reflexivity| |reflexivity]. repeat constructor; lia.
Defined.



(** C8 with no file, with a file that holds the test's store, and with a
    file that is not JSON. *)
Lemma load_results_cases_witness :
  Cli.load_results (world_of 0 0 [] None) = (Ok ∅, world_of 0 0 [] None) ∧
  Cli.load_results (world_of 0 0 [] (Some (Document demo_store)))
  = (Ok demo_store, world_of 0 0 [] (Some (Document demo_store))) ∧
  Cli.load_results (world_of 0 0 [] (Some Garbled))
  = (Raise JSONDecodeError, world_of 0 0 [] (Some Garbled)).
Proof.
  split; [|split].
  - apply (load_results_cases (L := ref_lib)). reflexivity.
  - apply (proj1 (proj2 (load_results_cases (L := ref_lib) _)) (Document demo_store));
      reflexivity.
  - apply (proj2 (proj2 (load_results_cases (L := ref_lib) _)) Garbled); reflexivity.
Defined.

(** X17 on the store of [test_save_and_load_results], over a file that
    was not JSON before. *)
Lemma load_reads_what_save_wrote_witness :
  (Cli.save_results demo_store ;;; Cli.load_results) (world_of 0 0 [] (Some Garbled))
  = (Ok demo_store, world_of 0 0 [] (Some (Document demo_store))).
Proof.
  destruct (load_reads_what_save_wrote (L := ref_lib) demo_store 3
              (world_of 0 0 [] (Some Garbled))) as [H _].
  exact H.
Defined.

(** C10 on two unparsable submissions at the first question. *)
Lemma unparsable_submission_ignored_witness :
  Gui.self
    (Gui.submit_all ["six"; ""]
       (Gui.begin_session (tk_of 2 (twenty 2) (world_of 0 30 [] None))).2).2
  = Gui.self (Gui.begin_session (tk_of 2 (twenty 2) (world_of 0 30 [] None))).2.
Proof.
  destruct (unparsable_submission_ignored (L := ref_lib) ["six"; ""]
              (Gui.begin_session (tk_of 2 (twenty 2) (world_of 0 30 [] None))).2)
    as (_ & _ & H & _).
  - repeat constructor.
  - exact H.
Defined.

(** * Further properties of the code *)

(** ** Merges, one after the other *)

Section Merges.
Implicit Types (r : Store) (key k : string) (e : float).

Lemma count_cons {A} (P : A → bool) (x : A) (l : list A) :
  count P (x :: l) = (if P x then 1 else 0) + count P l.
Proof.
  unfold count. rewrite filter_cons. case_decide as H.
  - rewrite H. simpl. lia.
  - destruct (P x); [done|]. lia.
Qed.

Lemma cli_merges_agree key (sessions : list (Z * float)) : ∀ r,
  cli_merges key sessions r
  = gui_merges key ((λ s, (success s.1 s.2, s.2)) <$> sessions) r.
Proof.
  induction sessions as [|[c e] sessions IH]; intros r; [done|].
  unfold cli_merges, gui_merges in *. simpl.
  rewrite record_session_agree. apply IH.
Qed.

(** X1. A merge changes the entry of the session's table and no other: the
    key is present afterwards, every other key holds what it held, and no
    key is removed. *)
Theorem merge_touches_one_entry r key k (c : Z) (ok : bool) e :
  k ≠ key →
  (Cli.record_session key c e r).2 !! k = r !! k ∧
  Gui.record_session key ok e r !! k = r !! k ∧
  dom (Cli.record_session key c e r).2 = {[key]} ∪ dom r ∧
  dom (Gui.record_session key ok e r) = {[key]} ∪ dom r.
Proof.
  intros Hne. rewrite record_session_agree. unfold Gui.record_session.
  rewrite !lookup_insert_ne by done. rewrite !dom_insert_L. done.
Qed.

(** X2. After any number of sessions of one table merged one after the
    other, the table's attempts have grown by the number of sessions, its
    successes by the number of successful ones and its failures by the
    number of the others; the command-line merge does as the graphical one
    does with the flag [success c e]. *)
Theorem merges_accumulate key (sessions : list (bool * float)) r :
  attempts (default fresh_stats (gui_merges key sessions r !! key))
  = attempts (default fresh_stats (r !! key)) + Z.of_nat (length sessions) ∧
  successes (default fresh_stats (gui_merges key sessions r !! key))
  = successes (default fresh_stats (r !! key)) + count fst sessions ∧
  failures (default fresh_stats (gui_merges key sessions r !! key))
  = failures (default fresh_stats (r !! key)) + count (λ s, negb s.1) sessions ∧
  ∀ games : list (Z * float),
    cli_merges key games r
    = gui_merges key ((λ s, (success s.1 s.2, s.2)) <$> games) r.
Proof.
  split; [|split; [|split]]; [| | |intros; apply cli_merges_agree].
  - revert r. induction sessions as [|[ok e] sessions IH]; intros r;
      [simpl; lia|].
    unfold gui_merges in *. cbn [foldl fst snd]. rewrite IH, gui_record_lookup.
    cbn [length default].
    destruct ok; simpl; [destruct (new_record _ _)|]; simpl; lia.
  - revert r. induction sessions as [|[ok e] sessions IH]; intros r;
      [unfold count; simpl; lia|].
    unfold gui_merges in *. cbn [foldl fst snd].
    rewrite IH, gui_record_lookup, count_cons. cbn [default fst].
    destruct ok; simpl; [destruct (new_record _ _)|]; simpl; lia.
  - revert r. induction sessions as [|[ok e] sessions IH]; intros r;
      [unfold count; simpl; lia|].
    unfold gui_merges in *. cbn [foldl fst snd].
    rewrite IH, gui_record_lookup, count_cons. cbn [default fst].
    destruct ok; simpl; [destruct (new_record _ _)|]; simpl; lia.
Qed.

Lemma gui_merges_best key (sessions : list (bool * float)) : ∀ r,
  (best_of (gui_merges key sessions r) key = best_of r key ∨
   ∃ e, (true, e) ∈ sessions ∧ best_of (gui_merges key sessions r) key = Some e) ∧
  (is_Some (best_of r key) → is_Some (best_of (gui_merges key sessions r) key)) ∧
  ((∃ e, (true, e) ∈ sessions) → is_Some (best_of (gui_merges key sessions r) key)).
Proof.
  induction sessions as [|[ok e] sessions IH]; intros r.
  { split; [by left|]. split; [done|]. intros [e He]. by apply elem_of_nil in He. }
  unfold gui_merges in *. cbn [foldl fst snd].
  destruct (IH (Gui.record_session key ok e r)) as (Hfrom & Hkeep & Hset).
  rewrite gui_record_best in Hfrom, Hkeep.
  assert (Hstep : is_Some (best_of r key) ∨ ok = true →
                  is_Some (if ok && new_record e (best_of r key)
                           then Some e else best_of r key)).
  { intros [Hs| ->].
    - by destruct (ok && new_record e (best_of r key)).
    - simpl. destruct (new_record e (best_of r key)) eqn:Hn; [done|].
      destruct (best_of r key); [done|discriminate]. }
  split; [|split].
  - destruct Hfrom as [Hfrom|(e' & He' & Hfrom)].
    + destruct (ok && new_record e (best_of r key)) eqn:Hok; [|by left].
      apply andb_true_iff in Hok as [-> _].
      right. exists e. split; [by left|done].
    + right. exists e'. split; [by right|done].
  - intros Hs. apply Hkeep, Hstep. by left.
  - intros [e' He']. apply elem_of_cons in He' as [He'|He'].
    + simplify_eq. apply Hkeep, Hstep. by right.
    + apply Hset. by exists e'.
Qed.

(** X3. After any number of merges for a table, its best time is the one
    it had before or the elapsed time of one of the successful sessions
    merged, never a value of a failed session; a best time once present
    stays present, and one successful session is enough to have one.  The
    same holds of the command-line merge. *)
Theorem best_time_comes_from_a_success key (sessions : list (bool * float))
    (games : list (Z * float)) r :
  (best_of (gui_merges key sessions r) key = best_of r key ∨
   ∃ e, (true, e) ∈ sessions ∧ best_of (gui_merges key sessions r) key = Some e) ∧
  (is_Some (best_of r key) → is_Some (best_of (gui_merges key sessions r) key)) ∧
  ((∃ e, (true, e) ∈ sessions) → is_Some (best_of (gui_merges key sessions r) key)) ∧
  (best_of (cli_merges key games r) key = best_of r key ∨
   ∃ c e, (c, e) ∈ games ∧ success c e = true ∧
          best_of (cli_merges key games r) key = Some e).
Proof.
  destruct (gui_merges_best key sessions r) as (H1 & H2 & H3).
  split; [done|]. split; [done|]. split; [done|].
  rewrite cli_merges_agree.
  destruct (gui_merges_best key ((λ s, (success s.1 s.2, s.2)) <$> games) r)
    as ([H|(e & He & H)] & _); [by left|].
  right. apply list_elem_of_fmap in He as ([c e'] & Heq & He). simpl in Heq.
  simplify_eq. by exists c, e'.
Qed.

End Merges.

(** ** How often a multiplier is asked *)

Section Repeats.
Implicit Types (t m : Z) (g : Gen) (l : list Problem).

Lemma filter_multiplier_NoDup l m :
  NoDup l.*2 → (length (filter (λ p, p.2 = m) l) ≤ 1)%nat.
Proof.
  induction l as [|p l IH]; intros Hnd; [simpl; lia|].
  rewrite fmap_cons in Hnd. apply NoDup_cons in Hnd as [Hp Hnd].
  rewrite filter_cons. case_decide as Hm; [|by apply IH].
  destruct (filter (λ p, p.2 = m) l) as [|q k] eqn:Hf; [simpl; lia|].
  exfalso. apply Hp.
  assert (Hq : q ∈ filter (λ p, p.2 = m) l) by (rewrite Hf; by left).
  apply list_elem_of_filter in Hq as [Hq Hin].
  rewrite Hm, <- Hq. apply list_elem_of_fmap. by exists q.
Qed.

Lemma filter_multiplier_pos l t m :
  (t, m) ∈ l → (1 ≤ length (filter (λ p, p.2 = m) l))%nat.
Proof.
  intros Hin.
  assert (H : (t, m) ∈ filter (λ p : Problem, p.2 = m) l)
    by (by apply list_elem_of_filter).
  destruct (filter _ l); [by apply elem_of_nil in H|simpl; lia].
Qed.

(** X4. In a session of the graphical front end no multiplier is asked
    more than twice; in one of the command-line front end a multiplier may
    come up to eight times, and not more: for every multiplier 0..12 some
    outcome of the random source asks it eight times; in both every
    multiplier 0..12 is asked at least once. *)
Theorem multiplier_repeats t g m :
  (length (filter (λ p, p.2 = m) (Gui.prepare_problems t g).1) ≤ 2)%nat ∧
  (length (filter (λ p, p.2 = m) (Cli.generate_problems t g).1) ≤ 8)%nat ∧
  (0 ≤ m ≤ 12 →
   (1 ≤ length (filter (λ p, p.2 = m) (Gui.prepare_problems t g).1))%nat ∧
   (1 ≤ length (filter (λ p, p.2 = m) (Cli.generate_problems t g).1))%nat) ∧
  (0 ≤ m ≤ 12 →
   ∃ g', length (filter (λ p, p.2 = m) (Cli.generate_problems t g').1) = 8%nat).
Proof.
  pose proof (filter_multiplier_NoDup ((λ i, (t, i)) <$> range 13) m) as Hfix.
  rewrite fixed_multipliers in Hfix. specialize (Hfix (NoDup_seqZ _ _)).
  split; [|split; [|split]].
  - rewrite gui_prepare_Permutation, filter_app, length_app.
    pose proof (filter_multiplier_NoDup _ m (gui_extra_NoDup t g)). lia.
  - rewrite cli_generate_Permutation, filter_app, length_app.
    pose proof (length_filter (λ p : Problem, p.2 = m) (Cli.extra_problems t g).1) as H.
    rewrite cli_extra_length in H. lia.
  - intros Hm. split; apply (filter_multiplier_pos _ t).
    + rewrite gui_prepare_Permutation, elem_of_app. left. by apply elem_of_fixed.
    + rewrite cli_generate_Permutation, elem_of_app. left. by apply elem_of_fixed.
  - intros Hm.
    destruct (cli_extra_any t (replicate 7 m) eq_refl) as [g' Hg'].
    { apply Forall_replicate. lia. }
    exists g'. rewrite cli_generate_Permutation, filter_app, length_app, Hg'.
    pose proof (filter_multiplier_pos ((λ i, (t, i)) <$> range 13) t m) as Hpos.
    specialize (Hpos ltac:(by apply elem_of_fixed)).
    assert (Hseven : length (filter (λ p : Problem, p.2 = m)
                               ((λ m, (t, m)) <$> replicate 7 m)) = 7%nat).
    { cbn [replicate fmap list_fmap]. by rewrite !filter_cons_True by done. }
    rewrite Hseven. lia.
Qed.

End Repeats.

(** ** Command-line sessions that end early, and what a whole one records *)

Section CliSessions.
Context {L : PyLib}.
Implicit Types (w : World) (p : Problem) (ps : list Problem)
  (answers rest : list string) (c t : Z).

Lemma ask_eof p c w :
  stdin w = [] →
  Cli.ask p c w = (Raise EOFError, set_shown (shown w ++ [Prompt p.1 p.2]) w).
Proof.
  intros Hin. destruct p as [x y], w as [g k i o f]. simpl in Hin. subst i.
  reflexivity.
Qed.

(** With fewer lines than problems the loop stops at the first problem
    left without a line: it has asked it, and raises [EOFError]. *)
Lemma ask_all_eof ps : ∀ c w p,
  ps !! length (stdin w) = Some p →
  Cli.ask_all ps c w
  = (Raise EOFError,
     set_stdin []
       (set_shown (shown w ++ transcript ps (stdin w) ++ [Prompt p.1 p.2]) w)).
Proof.
  induction ps as [|q ps IH]; intros c w p Hp; [done|].
  cbn [Cli.ask_all]. unfold bind at 1.
  destruct (stdin w) as [|a rest] eqn:Hin.
  - simpl in Hp. simplify_eq. rewrite (ask_eof p c w Hin).
    destruct w. simpl in *. by subst.
  - rewrite (ask_run q a c w rest Hin).
    rewrite (IH _ _ p) by (by destruct w).
    destruct w. unfold set_stdin, set_shown. simpl.
    by rewrite <- !app_assoc.
Qed.

Lemma practice_session_eof t ps w p :
  ps !! length (stdin w) = Some p →
  Cli.practice_session t ps w
  = (Raise EOFError,
     mkWorld (gen w) (tick (clock w)) []
       (shown w ++ transcript ps (stdin w) ++ [Prompt p.1 p.2]) (results_file w)).
Proof.
  intros Hp. unfold Cli.practice_session, bind at 1, time_time at 1, bind at 1.
  rewrite (ask_all_eof ps 0 _ p) by (by destruct w).
  by destruct w.
Qed.

(** X5. A command-line session whose input ends before every problem has
    an answer raises [EOFError] at the first problem left unanswered: that
    problem was the last one asked, no verdict is announced, and the results
    file is as it was - nothing of the session is recorded. *)
Theorem cli_session_abandoned t ps w :
  (length (stdin w) < length ps)%nat →
  (Cli.practice_session t ps w).1 = Raise EOFError ∧
  results_file (Cli.practice_session t ps w).2 = results_file w ∧
  stdin (Cli.practice_session t ps w).2 = [] ∧
  omap asked (shown (Cli.practice_session t ps w).2)
  = omap asked (shown w) ++ take (S (length (stdin w))) ps ∧
  verdict (shown (Cli.practice_session t ps w).2) = verdict (shown w).
Proof.
  intros Hlt. destruct (lookup_lt_is_Some_2 ps _ Hlt) as [p Hp].
  rewrite (practice_session_eof t ps w p Hp). cbn [fst snd results_file stdin shown].
  split; [done|]. split; [done|]. split; [done|]. split.
  - rewrite !omap_app. f_equal.
    rewrite (take_S_r ps _ p Hp). simpl. f_equal; [|by destruct p].
    rewrite <- (asked_transcript (take (length (stdin w)) ps) (stdin w))
      by (rewrite length_take_le; lia).
    f_equal. clear. generalize (stdin w). intros i.
    revert ps. induction i as [|a i IH]; intros [|q ps]; try done.
    simpl. by rewrite IH.
  - rewrite !verdict_app. simpl.
    by rewrite (verdict_silent _ (transcript_silent _ _)).
Qed.

Lemma score_bounds ps : ∀ answers,
  length answers = length ps →
  0 ≤ score ps answers ≤ Z.of_nat (length ps) ∧
  (score ps answers = Z.of_nat (length ps)
   ↔ Forall2 (λ p a, right p a = true) ps answers).
Proof.
  induction ps as [|p ps IH]; intros [|a answers] Hlen; try done.
  destruct (IH answers) as [Hb Hiff]; [by simplify_eq/=|].
  cbn [score length]. rewrite Nat2Z.inj_succ. destruct (right p a) eqn:Hr.
  - split; [lia|]. split.
    + intros H. constructor; [done|]. apply Hiff. lia.
    + intros H. apply Forall2_cons in H as [_ H]. apply Hiff in H. lia.
  - split; [lia|]. split; [lia|].
    intros H. apply Forall2_cons in H as [H _]. congruence.
Qed.

(** X6. [practice_table] on a table with no entry yet, given a line for
    each of its twenty problems and a results file that is absent or
    decodes: it ends normally, leaves the lines after the twentieth
    unread, and saves the loaded results with one new entry for the
    table: one attempt, and either one success with the rounded elapsed
    time as best time, when every answer is right and that time is at
    most 60, or one failure with no best time. *)
Theorem practice_table_outcome t w r answers rest :
  stdin w = answers ++ rest → length answers = 20%nat →
  found (results_file w) = Some r → r !! str t = None →
  ∃ w' entry,
    Cli.practice_table t w = (Ok tt, w') ∧ stdin w' = rest ∧
    results_file w' = Some (json_dump (<[str t := entry]> r)) ∧
    (Forall2 (λ p a, right p a = true) (Cli.generate_problems t (gen w)).1 answers →
     (round2 (now (tick (clock w)) - now (clock w)) <=? 60)%float = true →
     entry = mkStats 1 1 0 (Some (round2 (now (tick (clock w)) - now (clock w))%float))) ∧
    (¬ Forall2 (λ p a, right p a = true) (Cli.generate_problems t (gen w)).1 answers ∨
     (round2 (now (tick (clock w)) - now (clock w)) <=? 60)%float = false →
     entry = mkStats 1 0 1 None).
Proof.
  intros Hin Hlen Hr Hnone.
  unfold Cli.practice_table, bind at 1 2, show, modify, random.
  cbn [gen set_shown shown].
  pose proof (proj1 (twenty_problems t _ _ (cli_generate_Permutation t (gen w))
                       (cli_extra_length _ _) (cli_extra_Forall _ _))) as Hps.
  destruct (Cli.generate_problems t (gen w)) as [ps g1] eqn:Hgen.
  cbn [fst] in *.
  rewrite (practice_session_run t ps answers rest);
    [|by destruct w|by rewrite Hlen, Hps].
  destruct (score_bounds ps answers ltac:(by rewrite Hlen, Hps)) as [_ Hfull].
  rewrite Hps in Hfull.
  destruct w as [g k i o f]. simpl in *. rewrite Hr. simpl.
  rewrite record_session_agree.
  unfold Gui.record_session. rewrite Hnone. cbn [default].
  eexists _, _. split; [done|]. split; [done|]. split; [done|].
  unfold success. split.
  - intros Hall He. apply Hfull in Hall. rewrite Hall, He. reflexivity.
  - intros [Hall|He].
    + destruct (score ps answers =? 20) eqn:Hs; [|done].
      apply Z.eqb_eq in Hs. exfalso. apply Hall, Hfull. done.
    + rewrite He, andb_false_r. done.
Qed.

End CliSessions.

(** ** Starting, abandoning and completing a graphical session *)

Section GuiSessions.
Context {L : PyLib}.
Implicit Types (s : Gui.Tk) (p : Problem) (ps : list Problem)
  (answers : list string) (r : Store).

Lemma begin_session_run s p :
  Gui.problems (Gui.self s) !! 0%nat = Some p →
  Gui.begin_session s
  = (Ok tt,
     Gui.mkTk
       (Gui.mkApp (Gui.table (Gui.self s)) (Gui.problems (Gui.self s)) 0
          (Some (now (clock (Gui.world s)))) 0)
       (mkWorld (gen (Gui.world s)) (tick (clock (Gui.world s)))
          (stdin (Gui.world s))
          (shown (Gui.world s) ++ [QuestionLabel p.1 p.2])
          (results_file (Gui.world s)))).
Proof.
  intros Hp. destruct s as [[tb pr i st c] [g k inp o f]]. simpl in Hp.
  unfold Gui.begin_session, bind at 1 2 3 4, Gui.on_self, modify, Gui.io,
    time_time. simpl.
  by rewrite (show_question_more _ p) by done.
Qed.

(** [start_practice] up to line 78, when the entry is a table and the
    results file is absent or decodes. *)
Lemma start_practice_valid (entry : string) (t : Z) s r :
  py_int entry = Some t → 2 ≤ t ≤ 12 →
  found (results_file (Gui.world s)) = Some r →
  Gui.start_practice entry s
  = Gui.begin_session
      (Gui.mkTk
         (Gui.set_problems (Gui.prepare_problems t (gen (Gui.world s))).1
            (Gui.set_table (Some t) (Gui.self s)))
         (mkWorld (Gui.prepare_problems t (gen (Gui.world s))).2
            (clock (Gui.world s)) (stdin (Gui.world s))
            (shown (Gui.world s) ++ [StatsLabel (r !! str t)])
            (results_file (Gui.world s)))).
Proof.
  intros Hentry Ht Hr. unfold Gui.start_practice. rewrite Hentry.
  replace ((2 <=? t) && (t <=? 12)) with true
    by (symmetry; apply andb_true_iff; split; apply Z.leb_le; lia).
  destruct s as [a [g k inp o f]]. cbn [negb].
  unfold bind at 1 2 3 4 5, Gui.on_self, modify, Gui.io, Gui.load_stats_for_table,
    Gui.read_results, show, random, get. unfold bind at 1 2, modify. simpl in *.
  destruct f as [txt|]; simpl in *.
  - rewrite Hr. simpl. by destruct (Gui.prepare_problems t g).
  - simplify_eq. rewrite lookup_empty. by destruct (Gui.prepare_problems t g).
Qed.

(** X7. A table entry that [int] rejects, or a number outside 2..12,
    starts nothing: an error box is shown; the problems, the index, the
    count and the start time are as before, and neither the random source
    nor the clock nor the results file is touched.  The table attribute
    takes the number entered even when it is out of range. *)
Theorem start_practice_rejects (entry : string) s :
  (py_int entry = None ∨ ∃ t, py_int entry = Some t ∧ ¬ 2 ≤ t ≤ 12) →
  Gui.start_practice entry s
  = (Ok tt,
     saw [BoxInvalidInput]
       (Gui.mkTk
          (match py_int entry with
           | Some t => Gui.set_table (Some t) (Gui.self s)
           | None => Gui.self s
           end)
          (Gui.world s))).
Proof.
  intros [Hentry|(t & Hentry & Ht)]; unfold Gui.start_practice; rewrite Hentry.
  - by destruct s.
  - replace ((2 <=? t) && (t <=? 12)) with false; [by destruct s|].
    symmetry. apply andb_false_iff.
    destruct (Z.leb_spec 2 t); [|by left]. right. apply Z.leb_gt. lia.
Qed.

(** X8. A table entry in 2..12, with a results file that is absent or
    decodes, starts a session: twenty problems of that table with every
    multiplier 0..12 among them, index and count at zero, the start time
    read from the clock, the table's saved entry on the stats label and
    the first problem on screen; the results file is not written. *)
Theorem start_practice_begins (entry : string) (t : Z) s r :
  py_int entry = Some t → 2 ≤ t ≤ 12 →
  found (results_file (Gui.world s)) = Some r →
  ∃ ps p g,
    Gui.start_practice entry s
    = (Ok tt,
       Gui.mkTk (Gui.mkApp (Some t) ps 0 (Some (now (clock (Gui.world s)))) 0)
         (mkWorld g (tick (clock (Gui.world s))) (stdin (Gui.world s))
            (shown (Gui.world s) ++ [StatsLabel (r !! str t); QuestionLabel p.1 p.2])
            (results_file (Gui.world s)))) ∧
    ps !! 0%nat = Some p ∧
    length ps = 20%nat ∧
    (∀ q, q ∈ ps → q.1 = t ∧ 0 ≤ q.2 ≤ 12) ∧
    (∀ m, 0 ≤ m ≤ 12 → m ∈ ps.*2).
Proof.
  intros Hentry Ht Hr.
  rewrite (start_practice_valid entry t s r Hentry Ht Hr).
  destruct (twenty_problems t _ _ (gui_prepare_Permutation t (gen (Gui.world s)))
              (gui_extra_length _ _) (gui_extra_Forall _ _)) as (Hlen & Hin & Hall).
  destruct (Gui.prepare_problems t (gen (Gui.world s))) as [ps g] eqn:Hgen.
  cbn [fst snd] in *.
  destruct (lookup_lt_is_Some_2 ps 0 ltac:(lia)) as [p Hp].
  exists ps, p, g. rewrite (begin_session_run _ p) by done.
  destruct s as [a w]. simpl. rewrite <- app_assoc. done.
Qed.

(** X9. With a results file that does not decode, [start_practice] on a
    table in 2..12 raises the decoding error before any problem is made:
    no session starts, nothing is shown, and only the table attribute has
    changed. *)
Theorem start_practice_corrupt_file (entry : string) (t : Z) s :
  py_int entry = Some t → 2 ≤ t ≤ 12 →
  found (results_file (Gui.world s)) = None →
  Gui.start_practice entry s
  = (Raise JSONDecodeError,
     Gui.mkTk (Gui.set_table (Some t) (Gui.self s)) (Gui.world s)).
Proof.
  intros Hentry Ht Hr. unfold Gui.start_practice. rewrite Hentry.
  replace ((2 <=? t) && (t <=? 12)) with true
    by (symmetry; apply andb_true_iff; split; apply Z.leb_le; lia).
  destruct s as [a [g k inp o f]]. cbn [negb].
  unfold bind at 1 2, Gui.on_self, modify, Gui.io, Gui.load_stats_for_table,
    Gui.read_results, get. unfold bind at 1 2. simpl in *.
  destruct f as [txt|]; [|done]. simpl in Hr. by rewrite Hr.
Qed.

(** Integers submitted for some of the problems left, not all. *)
Lemma submit_all_partial answers : ∀ s,
  Forall (λ a, is_Some (py_int a)) answers →
  (Gui.current_index (Gui.self s) + length answers
   < length (Gui.problems (Gui.self s)))%nat →
  Gui.submit_all answers s
  = (Ok tt,
     saw (labels (take (length answers)
                    (drop (S (Gui.current_index (Gui.self s)))
                       (Gui.problems (Gui.self s)))))
       (Gui.mkTk
          (Gui.set_current_index (Gui.current_index (Gui.self s) + length answers)
             (Gui.set_correct_answers
                (Gui.correct_answers (Gui.self s)
                 + score (drop (Gui.current_index (Gui.self s))
                            (Gui.problems (Gui.self s))) answers)
                (Gui.self s)))
          (Gui.world s))).
Proof.
  induction answers as [|a answers IH]; intros s Hall Hlen.
  { destruct s as [[tb pr i st c] [g k inp o f]].
    unfold saw, labels, set_shown. simpl.
    rewrite Nat.add_0_r, app_nil_r.
    destruct (drop i pr); by rewrite Z.add_0_r. }
  apply Forall_cons in Hall as [Ha Hall].
  destruct s as [[tb pr i st c] w]. simpl in *.
  destruct (lookup_lt_is_Some_2 pr i ltac:(lia)) as [p Hp].
  destruct (lookup_lt_is_Some_2 pr (S i) ltac:(lia)) as [p' Hp'].
  cbn [Gui.submit_all]. unfold bind at 1. unfold get at 1. simpl.
  rewrite bool_decide_eq_true_2 by lia.
  unfold bind at 1.
  rewrite (check_answer_parsed a _ p Ha) by done. simpl.
  rewrite (show_question_more _ p') by done.
  rewrite IH; [|done|simpl; lia]. simpl.
  rewrite (drop_S pr p i Hp), (drop_S pr p' (S i) Hp'). cbn [score take].
  unfold saw, labels, Gui.set_current_index, Gui.set_correct_answers, set_shown.
  destruct w. simpl. rewrite <- app_assoc. simpl.
  rewrite <- !Z.add_assoc. by replace (S (i + length answers)) with (i + S (length answers))%nat by lia.
Qed.

(** X10. A graphical session given integers for only some of its problems
    is neither judged nor recorded: the index stands at the number of
    answers given, the results file is as it was and no verdict has been
    announced. *)
Theorem gui_session_abandoned s ps answers :
  Gui.problems (Gui.self s) = ps →
  Forall (λ a, is_Some (py_int a)) answers →
  (length answers < length ps)%nat →
  ((Gui.begin_session ;;; Gui.submit_all answers) s).1 = Ok tt ∧
  Gui.current_index (Gui.self ((Gui.begin_session ;;; Gui.submit_all answers) s).2)
  = length answers ∧
  Gui.correct_answers (Gui.self ((Gui.begin_session ;;; Gui.submit_all answers) s).2)
  = score ps answers ∧
  results_file (Gui.world ((Gui.begin_session ;;; Gui.submit_all answers) s).2)
  = results_file (Gui.world s) ∧
  verdict (shown (Gui.world ((Gui.begin_session ;;; Gui.submit_all answers) s).2))
  = verdict (shown (Gui.world s)).
Proof.
  intros Hps Hall Hlen.
  destruct (lookup_lt_is_Some_2 ps 0 ltac:(lia)) as [p Hp].
  unfold bind. rewrite (begin_session_run s p) by (by rewrite Hps).
  rewrite submit_all_partial; [|done|simpl; rewrite Hps; lia].
  destruct s as [[tb pr i st c] [g k inp o f]]. simpl in *. subst pr.
  rewrite drop_0, Z.add_0_l.
  split; [done|]. split; [done|]. split; [done|]. split; [done|].
  rewrite !verdict_app.
  by rewrite (verdict_silent _ (labels_silent _)).
Qed.

(** X11. A whole graphical session: a table in 2..12 entered, with a
    results file that is absent or decodes, and an integer submitted for
    each of the twenty problems.  It ends normally, announces the verdict
    of the count of right answers and the unrounded elapsed time, and
    writes the loaded results with the session merged into the table's
    entry. *)
Theorem gui_session_outcome (entry : string) (t : Z) s r answers :
  py_int entry = Some t → 2 ≤ t ≤ 12 →
  found (results_file (Gui.world s)) = Some r →
  length answers = 20%nat →
  Forall (λ a, is_Some (py_int a)) answers →
  ∃ s',
    (Gui.start_practice entry ;;; Gui.submit_all answers) s = (Ok tt, s') ∧
    Gui.self s'
    = Gui.mkApp (Some t) (Gui.prepare_problems t (gen (Gui.world s))).1 20
        (Some (now (clock (Gui.world s))))
        (score (Gui.prepare_problems t (gen (Gui.world s))).1 answers) ∧
    results_file (Gui.world s')
    = Some (json_dump
        (Gui.record_session (str t)
           (success (score (Gui.prepare_problems t (gen (Gui.world s))).1 answers)
              (now (tick (clock (Gui.world s))) - now (clock (Gui.world s)))%float)
           (now (tick (clock (Gui.world s))) - now (clock (Gui.world s)))%float r)) ∧
    verdict (shown (Gui.world s'))
    = Some (success (score (Gui.prepare_problems t (gen (Gui.world s))).1 answers)
              (now (tick (clock (Gui.world s))) - now (clock (Gui.world s)))%float).
Proof.
  intros Hentry Ht Hr Hlen Hall.
  pose proof (proj1 (twenty_problems t _ _
                       (gui_prepare_Permutation t (gen (Gui.world s)))
                       (gui_extra_length _ _) (gui_extra_Forall _ _))) as Hps.
  pose proof (start_practice_valid entry t s r Hentry Ht Hr) as Hstart.
  match type of Hstart with _ = Gui.begin_session ?x =>
    assert (Heq : (Gui.start_practice entry ;;; Gui.submit_all answers) s
                  = (Gui.begin_session ;;; Gui.submit_all answers) x)
      by (unfold bind; by rewrite Hstart)
  end.
  rewrite Heq. clear Heq Hstart.
  rewrite (gui_session_run _ _ answers eq_refl) by (simpl; by rewrite ?Hlen, ?Hps).
  cbv zeta.
  match goal with |- context [Gui.finish_practice ?x] =>
    rewrite (finish_practice_run x (now (clock (Gui.world s)))) by reflexivity
  end.
  destruct s as [a [g k inp o f]]. simpl in *. rewrite Hr. simpl.
  eexists. split; [done|]. simpl. rewrite Hps. split; [done|]. split; [done|].
  rewrite verdict_app. by destruct (success _ _).
Qed.

End GuiSessions.

(** ** The statistics view and the menu *)

Section MenuFacts.
Context {L : PyLib}.
Implicit Types (s : Menu.Term) (w : World) (r : Store) (rest : list string).

Lemma say_run (l : Line) s :
  Menu.say l s = (Ok tt, Menu.mkTerm (Menu.lines s ++ [l]) (Menu.world s)).
Proof. done. Qed.

Lemma read_run (prompt : Line) s (a : string) rest :
  stdin (Menu.world s) = a :: rest →
  Menu.read prompt s
  = (Ok a, Menu.mkTerm (Menu.lines s ++ [prompt]) (set_stdin rest (Menu.world s))).
Proof.
  intros Hin. unfold Menu.read, bind, Menu.say, modify, get. simpl.
  by rewrite Hin.
Qed.

Lemma read_eof (prompt : Line) s :
  stdin (Menu.world s) = [] →
  Menu.read prompt s
  = (Raise EOFError, Menu.mkTerm (Menu.lines s ++ [prompt]) (Menu.world s)).
Proof.
  intros Hin. unfold Menu.read, bind, Menu.say, modify, get. simpl.
  by rewrite Hin.
Qed.

(** A call that only adds to what was shown passes exactly that on. *)
Lemma call_run {A} (m : M World A) s (res : Res A) w (evs : list Event) :
  m (Menu.world s) = (res, w) → shown w = shown (Menu.world s) ++ evs →
  Menu.call m s = (res, Menu.mkTerm (Menu.lines s ++ (Printed <$> evs)) w).
Proof.
  intros Hm Hshown. unfold Menu.call. rewrite Hm, Hshown.
  by rewrite drop_app_length.
Qed.

Lemma show_stats_run s :
  Menu.show_stats s
  = match found (results_file (Menu.world s)) with
    | Some r =>
        (Ok tt,
         Menu.mkTerm
           (Menu.lines s ++
            (if (size r =? 0)%nat then [SayNoStats]
             else [SayStatsHeader; SayStatsRows (stats_row <$> r)]))
           (Menu.world s))
    | None => (Raise JSONDecodeError, s)
    end.
Proof.
  unfold Menu.show_stats, bind at 1.
  rewrite (call_run Cli.load_results s _ (Menu.world s) [] (load_results_run _))
    by (by rewrite app_nil_r).
  destruct s as [ls w]. simpl. rewrite app_nil_r.
  destruct (found (results_file w)) as [r|]; [|done].
  destruct (size r =? 0)%nat; [done|].
  unfold bind, Menu.say, modify. simpl. by rewrite <- app_assoc.
Qed.

(** X12. The statistics view only reads: whatever the results file holds,
    the world is left as it was.  Without a file, or with one that holds
    no table, it prints that there are no statistics yet; otherwise it
    prints a header and one row per table, with the counts as saved and a
    best time that is absent or zero shown as not available; a file that
    does not decode makes it raise the decoding error with nothing
    printed. *)
Theorem show_stats_view s :
  Menu.world (Menu.show_stats s).2 = Menu.world s ∧
  (∀ r, found (results_file (Menu.world s)) = Some r → r = ∅ →
        Menu.show_stats s
        = (Ok tt, Menu.mkTerm (Menu.lines s ++ [SayNoStats]) (Menu.world s))) ∧
  (∀ r, found (results_file (Menu.world s)) = Some r → r ≠ ∅ →
        ∃ rows,
          Menu.show_stats s
          = (Ok tt, Menu.mkTerm (Menu.lines s ++ [SayStatsHeader; SayStatsRows rows])
                      (Menu.world s)) ∧
          dom rows = dom r ∧
          ∀ k v, r !! k = Some v →
            ∃ row, rows !! k = Some row ∧
              attempts row = attempts v ∧ successes row = successes v ∧
              failures row = failures v ∧
              (best_time row = None ↔
               best_time v = None ∨ ∃ b, best_time v = Some b ∧ (b =? 0)%float = true) ∧
              (∀ b, best_time row = Some b → best_time v = Some b)) ∧
  (found (results_file (Menu.world s)) = None →
   Menu.show_stats s = (Raise JSONDecodeError, s)).
Proof.
  rewrite show_stats_run. split; [|split; [|split]].
  - destruct (found _) as [r|]; [|done]. by destruct (size r =? 0)%nat.
  - intros r -> ->. by rewrite map_size_empty.
  - intros r -> Hne. exists (stats_row <$> r).
    destruct (size r =? 0)%nat eqn:Hsize.
    { apply Nat.eqb_eq, map_size_empty_iff in Hsize. done. }
    split; [done|]. split; [apply dom_fmap_L|].
    intros k v Hv. exists (stats_row v). rewrite lookup_fmap, Hv.
    split; [done|]. split; [done|]. split; [done|]. split; [done|].
    unfold stats_row, displayed. simpl.
    destruct (best_time v) as [b|]; [|split; [split; [by left|done]|done]].
    destruct (b =? 0)%float eqn:Hb; split.
    + split; [|done]. intros _. right. by exists b.
    + done.
    + split; [done|]. intros [?|(b' & ? & ?)]; simplify_eq. congruence.
    + by intros b' [= ->].
  - by intros ->.
Qed.

(** [practice_table] reads some lines from the front of the input and
    gives back the rest. *)
Lemma practice_table_stdin (t : Z) w :
  ∃ n, stdin (Cli.practice_table t w).2 = drop n (stdin w).
Proof.
  unfold Cli.practice_table, bind at 1 2, show, modify, random.
  cbn [gen set_shown shown].
  pose proof (proj1 (twenty_problems t _ _ (cli_generate_Permutation t (gen w))
                       (cli_extra_length _ _) (cli_extra_Forall _ _))) as Hps.
  destruct (Cli.generate_problems t (gen w)) as [ps g1] eqn:Hgen.
  cbn [fst] in Hps.
  destruct (decide (20 ≤ length (stdin w))%nat) as [Hge|Hlt].
  - exists 20%nat.
    rewrite (practice_session_run t ps (take 20 (stdin w)) (drop 20 (stdin w)));
      [|destruct w; simpl; by rewrite take_drop
       |rewrite length_take_le by done; by rewrite Hps].
    destruct w as [g k i o f]. simpl. by destruct (found f).
  - exists (length (stdin w)).
    destruct (lookup_lt_is_Some_2 ps (length (stdin w)) ltac:(lia)) as [p Hp].
    rewrite (practice_session_eof t ps _ p) by (by destruct w).
    destruct w as [g k i o f]. simpl. by rewrite drop_all.
Qed.

(** The whole session played over a results file that does not decode. *)
Lemma practice_table_corrupt (t : Z) w (answers rest : list string) :
  stdin w = answers ++ rest → length answers = 20%nat →
  found (results_file w) = None →
  ∃ g ps,
    Cli.practice_table t w
    = (Raise JSONDecodeError,
       mkWorld g (tick (tick (clock w))) rest
         (shown w ++ SayPracticing t :: transcript ps answers) (results_file w)).
Proof.
  intros Hin Hlen Hr.
  unfold Cli.practice_table, bind at 1 2, show, modify, random.
  cbn [gen set_shown shown].
  pose proof (proj1 (twenty_problems t _ _ (cli_generate_Permutation t (gen w))
                       (cli_extra_length _ _) (cli_extra_Forall _ _))) as Hps.
  destruct (Cli.generate_problems t (gen w)) as [ps g1] eqn:Hgen.
  cbn [fst] in Hps. exists g1, ps.
  rewrite (practice_session_run t ps answers rest);
    [|by destruct w|by rewrite Hlen, Hps].
  destruct w as [g k i o f]. simpl in *. rewrite Hr.
  by rewrite <- app_assoc.
Qed.

Lemma in_range_true (t : Z) : 2 ≤ t ≤ 12 → (2 <=? t) && (t <=? 12) = true.
Proof. intros Ht. apply andb_true_iff. split; apply Z.leb_le; lia. Qed.

Lemma in_range_false (t : Z) : ¬ 2 ≤ t ≤ 12 → (2 <=? t) && (t <=? 12) = false.
Proof.
  intros Ht. apply andb_false_iff.
  destruct (Z.leb_spec 2 t); [|by left]. right. apply Z.leb_gt. lia.
Qed.

Lemma told_printed (evs : list Event) :
  omap told (Printed <$> evs) = omap judged evs.
Proof.
  induction evs as [|e evs IH]; [done|].
  rewrite fmap_cons. cbn [omap list_omap told]. by rewrite IH.
Qed.

Lemma choose_table_corrupt s (entry : string) (t : Z) (answers rest : list string) :
  stdin (Menu.world s) = entry :: answers ++ rest →
  py_int entry = Some t → 2 ≤ t ≤ 12 →
  length answers = 20%nat →
  found (results_file (Menu.world s)) = None →
  ∃ g ps,
    Menu.choose_table s
    = (Ok tt,
       Menu.mkTerm
         (Menu.lines s ++
          (AskTable :: Printed (SayPracticing t)
             :: (Printed <$> transcript ps answers)) ++ [SayValidNumber])
         (mkWorld g (tick (tick (clock (Menu.world s)))) rest
            (shown (Menu.world s) ++ SayPracticing t :: transcript ps answers)
            (results_file (Menu.world s)))).
Proof.
  intros Hin Hentry Ht Hlen Hr.
  unfold Menu.choose_table, except_ValueError, bind at 1.
  rewrite (read_run AskTable s entry (answers ++ rest) Hin).
  rewrite Hentry, (in_range_true t Ht).
  destruct (practice_table_corrupt t (set_stdin (answers ++ rest) (Menu.world s))
              answers rest) as (g & ps & Hrun);
    [by destruct (Menu.world s)|done|by destruct (Menu.world s)|].
  exists g, ps. erewrite call_run; [|exact Hrun|reflexivity].
  destruct s as [ls [g0 k i o f]]. simpl. rewrite say_run. simpl.
  by rewrite <- !app_assoc.
Qed.

(** X13. Choosing to practise with a results file that does not decode:
    the twenty questions are asked and answered, then the decoding error
    of [load_results], being a [ValueError], is caught by the handler
    meant for a table that is not a number.  The user is told to enter a
    valid number, no verdict is announced, the results file is as it was,
    and the menu goes on. *)
Theorem corrupt_file_reported_as_bad_number s (entry : string) (t : Z)
    (answers rest : list string) :
  stdin (Menu.world s) = entry :: answers ++ rest →
  py_int entry = Some t → 2 ≤ t ≤ 12 →
  length answers = 20%nat →
  found (results_file (Menu.world s)) = None →
  (Menu.choose_table s).1 = Ok tt ∧
  last (Menu.lines (Menu.choose_table s).2) = Some SayValidNumber ∧
  omap told (Menu.lines (Menu.choose_table s).2) = omap told (Menu.lines s) ∧
  stdin (Menu.world (Menu.choose_table s).2) = rest ∧
  results_file (Menu.world (Menu.choose_table s).2) = results_file (Menu.world s).
Proof.
  intros Hin Hentry Ht Hlen Hr.
  destruct (choose_table_corrupt s entry t answers rest Hin Hentry Ht Hlen Hr)
    as (g & ps & ->).
  cbn [fst snd Menu.lines Menu.world stdin results_file].
  split; [done|]. split; [|split; [|done]].
  - rewrite app_assoc. apply last_snoc.
  - rewrite !omap_app. simpl.
    by rewrite told_printed, transcript_silent, !app_nil_r.
Qed.

(** X14. A table that is not a number, or a number outside 2..12, is
    turned down with the matching message; no session is played: one line
    of input is read, nothing of a session is printed, and the random
    source, the clock and the results file are untouched. *)
Theorem choose_table_rejects s (entry : string) rest :
  stdin (Menu.world s) = entry :: rest →
  (py_int entry = None ∨ ∃ t, py_int entry = Some t ∧ ¬ 2 ≤ t ≤ 12) →
  Menu.choose_table s
  = (Ok tt,
     Menu.mkTerm
       (Menu.lines s ++
        [AskTable; if py_int entry is Some _ then SayChooseRange else SayValidNumber])
       (set_stdin rest (Menu.world s))).
Proof.
  intros Hin Hentry.
  unfold Menu.choose_table, except_ValueError, bind at 1.
  rewrite (read_run AskTable s entry rest Hin).
  destruct Hentry as [Hentry|(t & Hentry & Ht)]; rewrite Hentry.
  - rewrite say_run. simpl. by rewrite <- app_assoc.
  - rewrite (in_range_false t Ht), say_run. simpl. by rewrite <- app_assoc.
Qed.

End MenuFacts.

Section MainFacts.
Context {L : PyLib}.
Implicit Types (s : Menu.Term) (rest : list string).

Lemma choose_table_stdin s :
  ∃ n, stdin (Menu.world (Menu.choose_table s).2) = drop n (stdin (Menu.world s)).
Proof.
  unfold Menu.choose_table, except_ValueError, bind at 1.
  destruct (stdin (Menu.world s)) as [|a rest] eqn:Hin.
  { rewrite (read_eof AskTable s Hin). exists 0%nat. simpl. by rewrite Hin. }
  rewrite (read_run AskTable s a rest Hin).
  destruct (py_int a) as [t|]; [|by exists 1%nat].
  destruct ((2 <=? t) && (t <=? 12)); [|by exists 1%nat].
  destruct (practice_table_stdin t (set_stdin rest (Menu.world s))) as [n Hn].
  exists (S n). unfold Menu.call. cbn [Menu.world].
  destruct (Cli.practice_table t (set_stdin rest (Menu.world s))) as [[[]|e] w];
    simpl in *.
  - rewrite Hn. by destruct (Menu.world s).
  - destruct (is_ValueError e); simpl; rewrite Hn; by destruct (Menu.world s).
Qed.

Lemma show_stats_world s : Menu.world (Menu.show_stats s).2 = Menu.world s.
Proof.
  rewrite show_stats_run. destruct (found _) as [r|]; [|done].
  by destruct (size r =? 0)%nat.
Qed.

(** One turn of the loop with a line to read. *)
Lemma main_loop_turn (n : nat) s (a : string) rest :
  stdin (Menu.world s) = a :: rest →
  Menu.main_loop (S n) s
  = (if String.eqb a "1" then Menu.choose_table ;;; Menu.main_loop n
     else if String.eqb a "2" then Menu.show_stats ;;; Menu.main_loop n
     else if String.eqb a "3" then Menu.say SayGoodbye
     else Menu.say SayInvalidChoice ;;; Menu.main_loop n)
      (Menu.mkTerm (Menu.lines s ++ [SayMenu; AskChoice])
         (set_stdin rest (Menu.world s))).
Proof.
  intros Hin. cbn [Menu.main_loop]. unfold bind at 1. rewrite say_run.
  unfold bind at 1.
  rewrite (read_run AskChoice _ a rest) by done. simpl.
  by rewrite <- app_assoc.
Qed.

Lemma main_loop_eof (n : nat) s :
  stdin (Menu.world s) = [] →
  Menu.main_loop (S n) s
  = (Raise EOFError,
     Menu.mkTerm (Menu.lines s ++ [SayMenu; AskChoice]) (Menu.world s)).
Proof.
  intros Hin. cbn [Menu.main_loop]. unfold bind at 1. rewrite say_run.
  unfold bind at 1. rewrite read_eof by done. simpl. by rewrite <- app_assoc.
Qed.

(** More turns than there are lines of input change nothing: the loop has
    ended before they are used up. *)
Lemma main_loop_enough (n : nat) : ∀ m s,
  (length (stdin (Menu.world s)) < n)%nat →
  (length (stdin (Menu.world s)) < m)%nat →
  Menu.main_loop n s = Menu.main_loop m s.
Proof.
  induction n as [|n IH]; intros m s Hn Hm; [lia|].
  destruct m as [|m]; [lia|].
  destruct (stdin (Menu.world s)) as [|a rest] eqn:Hin.
  { by rewrite !main_loop_eof. }
  rewrite !(main_loop_turn _ s a rest Hin). simpl in Hn, Hm.
  set (s1 := Menu.mkTerm _ _).
  assert (Hs1 : stdin (Menu.world s1) = rest) by (by destruct (Menu.world s)).
  destruct (String.eqb a "1"); [|destruct (String.eqb a "2");
    [|destruct (String.eqb a "3"); [done|]]].
  - unfold bind. destruct (choose_table_stdin s1) as [k Hk].
    destruct (Menu.choose_table s1) as [[[]|e] s2]; [|done].
    cbn [snd] in Hk. apply IH; rewrite Hk, length_drop, Hs1; lia.
  - unfold bind. pose proof (show_stats_world s1) as Hw.
    destruct (Menu.show_stats s1) as [[[]|e] s2]; [|done].
    cbn [snd] in Hw. apply IH; rewrite Hw, Hs1; lia.
  - unfold bind. rewrite say_run. apply IH; cbn [Menu.world]; rewrite Hs1; lia.
Qed.

Lemma main_loop_needs_quit (n : nat) : ∀ s,
  "3" ∉ stdin (Menu.world s) →
  (length (stdin (Menu.world s)) < n)%nat →
  ∃ e, (Menu.main_loop n s).1 = Raise e.
Proof.
  induction n as [|n IH]; intros s Hno Hn; [lia|].
  destruct (stdin (Menu.world s)) as [|a rest] eqn:Hin.
  { rewrite main_loop_eof by done. by exists EOFError. }
  rewrite (main_loop_turn _ s a rest Hin). simpl in Hn.
  apply not_elem_of_cons in Hno as [Ha Hno].
  set (s1 := Menu.mkTerm _ _).
  assert (Hs1 : stdin (Menu.world s1) = rest) by (by destruct (Menu.world s)).
  assert (Hsub : ∀ k, "3" ∉ drop k rest).
  { intros k Hk. apply Hno. eapply elem_of_sublist; [exact Hk|].
    apply sublist_drop. }
  destruct (String.eqb a "1"); [|destruct (String.eqb a "2");
    [|destruct (String.eqb a "3") eqn:H3]].
  - unfold bind. destruct (choose_table_stdin s1) as [k Hk].
    destruct (Menu.choose_table s1) as [[[]|e] s2]; [|by exists e].
    cbn [snd] in Hk. apply IH; rewrite Hk, Hs1; [done|]. rewrite length_drop. lia.
  - unfold bind. pose proof (show_stats_world s1) as Hw.
    destruct (Menu.show_stats s1) as [[[]|e] s2]; [|by exists e].
    cbn [snd] in Hw. apply IH; rewrite Hw, Hs1; [done|lia].
  - apply String.eqb_eq in H3. congruence.
  - unfold bind. rewrite say_run. apply IH; cbn [Menu.world]; rewrite Hs1; [done|lia].
Qed.

(** X15. The menu ends normally on the choice ["3"] and on nothing else:
    with ["3"] as the next line it says goodbye and returns, leaving the
    lines after it unread and the world otherwise untouched; with no line
    ["3"] in the input it never returns normally - it ends by an exception
    once the input is used up, if not before.  The loop takes no more
    turns than there are lines of input, and one. *)
Theorem main_returns_on_quit s :
  (∀ rest, stdin (Menu.world s) = "3" :: rest →
     Menu.main s
     = (Ok tt,
        Menu.mkTerm (Menu.lines s ++ [SayMenu; AskChoice; SayGoodbye])
          (set_stdin rest (Menu.world s)))) ∧
  ("3" ∉ stdin (Menu.world s) → ∃ e, (Menu.main s).1 = Raise e) ∧
  (∀ n, (length (stdin (Menu.world s)) < n)%nat → Menu.main_loop n s = Menu.main s).
Proof.
  split; [|split].
  - intros rest Hin. unfold Menu.main.
    rewrite (main_loop_turn _ s "3" rest Hin). simpl. rewrite say_run. simpl.
    by rewrite <- app_assoc.
  - intros Hno. apply main_loop_needs_quit; [done|lia].
  - intros n Hn. apply main_loop_enough; [done|lia].
Qed.

(** X16. Choosing the statistics view with a results file that does not
    decode ends the program: the decoding error is raised out of [main],
    with nothing printed after the prompt for the choice. *)
Theorem stats_on_corrupt_file_ends_main s rest :
  stdin (Menu.world s) = "2" :: rest →
  found (results_file (Menu.world s)) = None →
  Menu.main s
  = (Raise JSONDecodeError,
     Menu.mkTerm (Menu.lines s ++ [SayMenu; AskChoice])
       (set_stdin rest (Menu.world s))).
Proof.
  intros Hin Hr. unfold Menu.main.
  rewrite (main_loop_turn _ s "2" rest Hin). simpl.
  unfold bind. rewrite show_stats_run. simpl.
  replace (results_file (set_stdin rest (Menu.world s)))
    with (results_file (Menu.world s)) by (by destruct (Menu.world s)).
  by rewrite Hr.
Qed.

End MainFacts.

(** * The further properties at concrete inputs *)

(** X1 at the store of the repository's test: a session of table 3 leaves
    table 5 without an entry. *)
Lemma merge_touches_one_entry_witness :
  (Cli.record_session "3" 20 30 demo_store).2 !! "5" = demo_store !! "5" ∧
  Gui.record_session "3" true 30 demo_store !! "5" = demo_store !! "5".
Proof.
  destruct (merge_touches_one_entry demo_store "3" "5" 20 true 30) as (Hc & Hg & _).
  - discriminate.
  - split; [exact Hc|exact Hg].
Defined.

(** X5 on two lines of input for twenty problems. *)
Lemma cli_session_abandoned_witness :
  (Cli.practice_session 2 (twenty 2) (world_of 0 30 ["0"; "2"] None)).1
  = Raise EOFError ∧
  results_file (Cli.practice_session 2 (twenty 2) (world_of 0 30 ["0"; "2"] None)).2
  = None.
Proof.
  destruct (cli_session_abandoned (L := ref_lib) 2 (twenty 2)
              (world_of 0 30 ["0"; "2"] None)) as (H1 & H2 & _).
  - simpl. lia.
  - split; [exact H1|exact H2].
Defined.

(** X6 as in [test_practice_table_success]: the right answers to the
    problems generated for table 2, between clock readings 1000 and 1030,
    with no results file. *)
Lemma practice_table_outcome_witness :
  ∃ w' entry,
    Cli.practice_table 2
      (world_of 1000 1030 (right_answers (Cli.generate_problems 2 gen0).1 ++ ["3"]) None)
    = (Ok tt, w') ∧
    stdin w' = ["3"] ∧
    results_file w' = Some (Document (<["2" := entry]> ∅)) ∧
    entry = mkStats 1 1 0 (Some 30%float).
Proof.
  destruct (practice_table_outcome (L := ref_lib) 2
              (world_of 1000 1030
                 (right_answers (Cli.generate_problems 2 gen0).1 ++ ["3"]) None)
              ∅ (right_answers (Cli.generate_problems 2 gen0).1) ["3"]
              eq_refl eq_refl eq_refl eq_refl)
    as (w' & entry & Hrun & Hrest & Hfile & Hsucc & _).
  exists w', entry. split; [exact Hrun|]. split; [exact Hrest|].
  split; [exact Hfile|]. apply Hsucc.
  - apply (bool_decide_unpack _). vm_compute. exact I.
  - vm_compute. reflexivity.
Defined.

(** X7 on the entry ["99"]. *)
Lemma start_practice_rejects_witness :
  Gui.start_practice "99" (tk0 (world_of 0 30 [] None))
  = (Ok tt,
     saw [BoxInvalidInput]
       (Gui.mkTk (Gui.set_table (Some 99) Gui.init) (world_of 0 30 [] None))).
Proof.
  apply (start_practice_rejects (L := ref_lib) "99" (tk0 (world_of 0 30 [] None))).
  right. exists 99. split; [reflexivity|lia].
Defined.

(** X8 on the entry ["3"] with no results file. *)
Lemma start_practice_begins_witness :
  (Gui.start_practice "3" (tk0 (world_of 0 30 [] None))).1 = Ok tt ∧
  length (Gui.problems (Gui.self (Gui.start_practice "3" (tk0 (world_of 0 30 [] None))).2))
  = 20%nat.
Proof.
  destruct (start_practice_begins (L := ref_lib) "3" 3 (tk0 (world_of 0 30 [] None)) ∅
              eq_refl ltac:(lia) eq_refl) as (ps & p & g & Hrun & _ & Hlen & _).
  rewrite Hrun. split; [reflexivity|exact Hlen].
Defined.

(** X9 on the entry ["3"] with a results file that is not JSON. *)
Lemma start_practice_corrupt_file_witness :
  Gui.start_practice "3" (tk0 (world_of 0 30 [] (Some Garbled)))
  = (Raise JSONDecodeError,
     Gui.mkTk (Gui.set_table (Some 3) Gui.init) (world_of 0 30 [] (Some Garbled))).
Proof.
  apply (start_practice_corrupt_file (L := ref_lib) "3" 3
           (tk0 (world_of 0 30 [] (Some Garbled))) eq_refl ltac:(lia) eq_refl).
Defined.

(** X10 on two answers for twenty problems. *)
Lemma gui_session_abandoned_witness :
  Gui.current_index
    (Gui.self ((Gui.begin_session ;;; Gui.submit_all ["0"; "7"])
                 (tk_of 2 (twenty 2) (world_of 0 30 [] None))).2) = 2%nat ∧
  results_file
    (Gui.world ((Gui.begin_session ;;; Gui.submit_all ["0"; "7"])
                  (tk_of 2 (twenty 2) (world_of 0 30 [] None))).2) = None.
Proof.
  destruct (gui_session_abandoned (L := ref_lib)
              (tk_of 2 (twenty 2) (world_of 0 30 [] None)) (twenty 2) ["0"; "7"]
              eq_refl) as (_ & Hi & _ & Hf & _).
  - repeat constructor; eexists; reflexivity.
  - simpl. lia.
  - split; [exact Hi|exact Hf].
Defined.

(** X11 on table 2 and twenty answers ["0"]. *)
Lemma gui_session_outcome_witness :
  ∃ s', (Gui.start_practice "2" ;;; Gui.submit_all (replicate 20 "0"))
          (tk0 (world_of 0 30 [] None)) = (Ok tt, s') ∧
        verdict (shown (Gui.world s')) = Some false.
Proof.
  destruct (gui_session_outcome (L := ref_lib) "2" 2 (tk0 (world_of 0 30 [] None)) ∅
              (replicate 20 "0") eq_refl ltac:(lia) eq_refl eq_refl)
    as (s' & Hrun & _ & _ & Hv).
  - apply (bool_decide_unpack _). vm_compute. exact I.
  - exists s'. split; [exact Hrun|]. rewrite Hv. vm_compute. reflexivity.
Defined.

(** X12 on a store whose one best time is zero: the row shows none. *)
Lemma show_stats_view_witness :
  ∃ rows row,
    Menu.show_stats (term_of (world_of 0 30 [] (Some (Document zero_store))))
    = (Ok tt,
       Menu.mkTerm [SayStatsHeader; SayStatsRows rows]
         (world_of 0 30 [] (Some (Document zero_store)))) ∧
    rows !! "3" = Some row ∧ best_time row = None.
Proof.
  destruct (show_stats_view (L := ref_lib)
              (term_of (world_of 0 30 [] (Some (Document zero_store)))))
    as (_ & _ & H & _).
  destruct (H zero_store eq_refl (map_non_empty_singleton _ _))
    as (rows & Hrun & _ & Hrows).
  destruct (Hrows "3" (mkStats 1 1 0 (Some 0%float)) eq_refl)
    as (row & Hrow & _ & _ & _ & Hbest & _).
  exists rows, row. split; [exact Hrun|]. split; [exact Hrow|].
  apply Hbest. right. exists 0%float. split; reflexivity.
Defined.

(** X13 on table 2, twenty answers and a results file that is not JSON. *)
Lemma corrupt_file_reported_as_bad_number_witness :
  last (Menu.lines
          (Menu.choose_table
             (term_of (world_of 0 30 ("2" :: replicate 20 "0" ++ ["3"])
                         (Some Garbled)))).2)
  = Some SayValidNumber ∧
  results_file
    (Menu.world
       (Menu.choose_table
          (term_of (world_of 0 30 ("2" :: replicate 20 "0" ++ ["3"])
                      (Some Garbled)))).2)
  = Some Garbled.
Proof.
  destruct (corrupt_file_reported_as_bad_number (L := ref_lib)
              (term_of (world_of 0 30 ("2" :: replicate 20 "0" ++ ["3"]) (Some Garbled)))
              "2" 2 (replicate 20 "0") ["3"] eq_refl eq_refl ltac:(lia) eq_refl eq_refl)
    as (_ & Hlast & _ & _ & Hfile).
  split; [exact Hlast|exact Hfile].
Defined.

(** X14 on the table entries ["abc"] and ["20"]. *)
Lemma choose_table_rejects_witness :
  Menu.choose_table (term_of (world_of 0 30 ["abc"; "3"] None))
  = (Ok tt, Menu.mkTerm [AskTable; SayValidNumber] (world_of 0 30 ["3"] None)) ∧
  Menu.choose_table (term_of (world_of 0 30 ["20"; "3"] None))
  = (Ok tt, Menu.mkTerm [AskTable; SayChooseRange] (world_of 0 30 ["3"] None)).
Proof.
  split.
  - apply (choose_table_rejects (L := ref_lib)
             (term_of (world_of 0 30 ["abc"; "3"] None)) "abc" ["3"] eq_refl).
    left. reflexivity.
  - apply (choose_table_rejects (L := ref_lib)
             (term_of (world_of 0 30 ["20"; "3"] None)) "20" ["3"] eq_refl).
    right. exists 20. split; [reflexivity|lia].
Defined.

(** X15 on the inputs ["3"; "x"] and ["9"; "2"]. *)
Lemma main_returns_on_quit_witness :
  Menu.main (term_of (world_of 0 30 ["3"; "x"] None))
  = (Ok tt, Menu.mkTerm [SayMenu; AskChoice; SayGoodbye] (world_of 0 30 ["x"] None)) ∧
  ∃ e, (Menu.main (term_of (world_of 0 30 ["9"; "2"] None))).1 = Raise e.
Proof.
  split.
  - apply (proj1 (main_returns_on_quit (L := ref_lib)
                    (term_of (world_of 0 30 ["3"; "x"] None))) ["x"] eq_refl).
  - apply (proj1 (proj2 (main_returns_on_quit (L := ref_lib)
                           (term_of (world_of 0 30 ["9"; "2"] None))))).
    simpl. intros H. repeat (apply elem_of_cons in H as [H|H]; [discriminate|]).
    by apply elem_of_nil in H.
Defined.

(** X16 on the choice ["2"] with a results file that is not JSON. *)
Lemma stats_on_corrupt_file_ends_main_witness :
  Menu.main (term_of (world_of 0 30 ["2"; "3"] (Some Garbled)))
  = (Raise JSONDecodeError,
     Menu.mkTerm [SayMenu; AskChoice] (world_of 0 30 ["3"] (Some Garbled))).
Proof.
  apply (stats_on_corrupt_file_ends_main (L := ref_lib)
           (term_of (world_of 0 30 ["2"; "3"] (Some Garbled))) ["3"] eq_refl eq_refl).
Defined.
